(** * The medicine-dispensing handler of the pharmacist controller

    A shallow embedding of [giveMedicines] (the pharmacist controller) and of
    the [Medicine] model it works on, followed by the properties of the
    dispensing transaction.

    Modelling choices:
    - a JavaScript number holding a stock level or a requested amount is an
      integer-valued double, written as the integer [Z] it holds; comparison
      is exact, and a subtraction gives the exact difference rounded to the
      nearest double (53 significant bits, ties to even);
    - ids and names are strings; an id field of the request body that is
      absent or the empty string is falsy;
    - the [Medicine] collection is a list of documents, a document's [_id]
      being its position; [findOne] returns the first document that matches;
    - [save] on a medicine document runs the schema validators of every
      path of the loaded document ([name] required, [quantity] and
      [lowStockThreshold] with [min: 0]) and then sets the modified path
      only; of the paths that fail, the error names one, [quantity] first;
    - the [Visit] collection is a finite map from [_id] to document, and
      [findById] of an id that names no visit yields no document; saving a
      visit is the compare-and-set of the spec: it is refused when the visit
      has been marked since it was read;
    - every [await] of the handler is one atomic access to the store. *)

From stdpp Require Import gmap strings list fin_maps sorting.
From Stdlib Require Import ZArith Lia.

Local Open Scope Z_scope.

(** ** Numbers *)

(** The integer-valued double nearest to the integer [x]: [x] itself below
    2^53, and beyond that [x] rounded to 53 significant bits, a tie going to
    the even one.  (No exponent bound: magnitudes are taken to stay below
    2^1024, where a double becomes infinite.) *)
Definition round_double (x : Z) : Z :=
  let a := Z.abs x in
  if a <? 2 ^ 53 then x
  else
    let shift := Z.log2 a - 52 in
    let q := Z.shiftr a shift in
    let r := a - Z.shiftl q shift in
    let half := Z.shiftl 1 (shift - 1) in
    let q' := if (half <? r) || ((r =? half) && Z.odd q) then q + 1 else q in
    Z.sgn x * Z.shiftl q' shift.

(** [a - b] on numbers. *)
Definition js_minus (a b : Z) : Z := round_double (a - b).


(** ** Data model *)

(** An entry of the [medicines] array of the request body; the same shape is
    stored in [givenMedicines]. *)
Module Item.
Record t : Type := mk {
  medicineName : string;
  quantity : Z;
  dosage : string;
  instructions : string;
  kala : string;
  anupana : string
}.
End Item.

(** [models/Medicine.ts]: documents and the pure part of the model's
    operations on the collection. *)
Module Medicine.
Record doc : Type := mk {
  name : string;
  quantity : Z;
  lowStockThreshold : Z
}.

Definition set_quantity (q : Z) (m : doc) : doc :=
  {| name := name m; quantity := q; lowStockThreshold := lowStockThreshold m |}.

(** [Medicine.findOne({ name })]: the first document with that name,
    together with its position in the collection. *)
Definition findOne (n : string) (coll : list doc) : option (nat * doc) :=
  list_find (λ m, name m = n) coll.

(** The [min: 0] validator of the [quantity] path. *)
Definition quantity_valid (q : Z) : bool := 0 <=? q.

(** The write issued by [save] once validation has passed: the modified
    path of the document with that [_id] is set. *)
Definition update (i : nat) (q : Z) (coll : list doc) : list doc :=
  alter (set_quantity q) i coll.
End Medicine.

(** The [Visit] model, as far as the handler uses it. *)
Module Visit.

(** Modelled from the spec: [models/Visit.ts] is not part of the sources at
    hand; the document carries the fields the spec lists ([prescribedMedicines],
    [medicineGiven], [givenMedicines]). *)
Record doc : Type := mk {
  prescribedMedicines : list Item.t;
  medicineGiven : bool;
  givenMedicines : list Item.t
}.

Definition findById (vid : string) (coll : gmap string doc) : option doc :=
  coll !! vid.

(** The two assignments made by the handler before [visit.save()]. *)
Definition mark_given (items : list Item.t) (v : doc) : doc :=
  {| prescribedMedicines := prescribedMedicines v;
     medicineGiven := true;
     givenMedicines := items |}.

Definition update (vid : string) (items : list Item.t)
    (coll : gmap string doc) : gmap string doc :=
  alter (mark_given items) vid coll.

(** Modelled from the spec: the write behind [visit.save()] is the spec's
    [markDispensed], one compare-and-set: it goes through only if the visit
    is there and is not dispensed at that moment, and changes nothing
    otherwise. *)
Definition markDispensed (vid : string) (items : list Item.t)
    (coll : gmap string doc) : option (gmap string doc) :=
  match coll !! vid with
  | Some v => if medicineGiven v then None else Some (update vid items coll)
  | None => None
  end.
End Visit.

(** The two collections the handler reads and writes. *)
Record Store : Type := mkStore {
  Medicines : list Medicine.doc;
  Visits : gmap string Visit.doc
}.

(** [req.body]: a field that is absent is [None]; [medicines] is [None] when
    it is not an array. *)
Record ReqBody : Type := mkReq {
  visitId : option string;
  hospitalId : option string;
  medicines : option (list Item.t)
}.

(** An error thrown inside the [try] block. *)
Inductive Error : Type :=
  | ValidationError (path : string) (value : Z)  (* a [min] validator *)
  | RequiredError (path : string)                (* a [required] validator *)
  | VersionError.                                (* a refused save of a visit *)

(** What the handler answers: one constructor per [res.status(..).json(..)]
    of the source. *)
Inductive Response : Type :=
  | InvalidRequest     (* 'Invalid request data' *)
  | VisitNotFound      (* 'Visit not found' *)
  | AlreadyDispensed   (* 'Medicines already given for this visit' *)
  | MedicineNotFound (medicineName : string)
                       (* 'Medicine .. not found in inventory' *)
  | InsufficientStock (medicineName : string) (available required : Z)
                       (* 'Insufficient stock for .. Available: .., Required: ..' *)
  | Failed (e : Error) (* the catch block: error.message *)
  | Success.           (* 'Medicines dispensed successfully' *)

Definition status (r : Response) : Z :=
  match r with
  | Success => 200
  | _ => 400
  end.

(** ** The handler monad

    State passing over the store, with the two ways of leaving the body of
    the [try] block early: a [return res...] and a thrown error.  The store
    is kept as it is at the point of exit. *)

Inductive Exit : Type :=
  | Return (r : Response)
  | Throw (e : Error).

Definition Handler (A : Type) : Type := Store → Store * (Exit + A).

Definition ret {A} (a : A) : Handler A := λ st, (st, inr a).

Definition bind {A B} (m : Handler A) (k : A → Handler B) : Handler B :=
  λ st, match m st with
        | (st', inr a) => k a st'
        | (st', inl e) => (st', inl e)
        end.

Definition respond {A} (r : Response) : Handler A := λ st, (st, inl (Return r)).

Definition throw {A} (e : Error) : Handler A := λ st, (st, inl (Throw e)).

Notation "'await' x '<~' m ';;' k" := (bind m (λ x, k))
  (at level 10, x name, m at level 99, k at level 200).
Notation "'await!' m ';;' k" := (bind m (λ _, k))
  (at level 10, m at level 99, k at level 200).

(** [for (const x of xs) { body }] *)
Fixpoint forOf {A} (xs : list A) (body : A → Handler unit) : Handler unit :=
  match xs with
  | [] => ret tt
  | x :: rest => await! body x ;; forOf rest body
  end.

(** The awaited store operations. *)
Definition Visit_findById (vid : string) : Handler (option Visit.doc) :=
  λ st, (st, inr (Visit.findById vid (Visits st))).

Definition Medicine_findOne (n : string) : Handler (option (nat * Medicine.doc)) :=
  λ st, (st, inr (Medicine.findOne n (Medicines st))).

(** The validators [save] runs on a medicine document, all three paths. *)
Definition save_error (m : Medicine.doc) : option Error :=
  if negb (Medicine.quantity_valid (Medicine.quantity m))
  then Some (ValidationError "quantity" (Medicine.quantity m))
  else if bool_decide (Medicine.name m = EmptyString)
  then Some (RequiredError "name")
  else if Medicine.lowStockThreshold m <? 0
  then Some (ValidationError "lowStockThreshold" (Medicine.lowStockThreshold m))
  else None.

(** [medicine.save()], [m] being the document in hand, read at position [i]
    and with its quantity reassigned. *)
Definition Medicine_save (i : nat) (m : Medicine.doc) : Handler unit :=
  λ st, match save_error m with
        | Some e => throw e st
        | None =>
            (mkStore (Medicine.update i (Medicine.quantity m) (Medicines st))
               (Visits st), inr tt)
        end.

(** [visit.save()] after the two assignments. *)
Definition Visit_save (vid : string) (items : list Item.t) : Handler unit :=
  λ st, match Visit.markDispensed vid items (Visits st) with
        | Some visits => (mkStore (Medicines st) visits, inr tt)
        | None => throw VersionError st
        end.

(** ** [giveMedicines] *)

(** The body of the first loop: "Validate all medicines and stock first". *)
Definition validate_item (item : Item.t) : Handler unit :=
  await medicine <~ Medicine_findOne (Item.medicineName item) ;;
  match medicine with
  | None => respond (MedicineNotFound (Item.medicineName item))
  | Some (_, m) =>
      if Medicine.quantity m <? Item.quantity item
      then respond (InsufficientStock (Item.medicineName item)
                      (Medicine.quantity m) (Item.quantity item))
      else ret tt
  end.

(** The body of the second loop: "Deduct inventory". *)
Definition deduct_item (item : Item.t) : Handler unit :=
  await medicine <~ Medicine_findOne (Item.medicineName item) ;;
  match medicine with
  | Some (i, m) =>
      Medicine_save i
        (Medicine.set_quantity
           (js_minus (Medicine.quantity m) (Item.quantity item)) m)
  | None => ret tt
  end.

Definition giveMedicines_try (req : ReqBody) : Handler Response :=
  match visitId req, hospitalId req, medicines req with
  | Some vid, Some hid, Some items =>
      if bool_decide (vid = EmptyString) || bool_decide (hid = EmptyString)
      then respond InvalidRequest
      else
        await visit <~ Visit_findById vid ;;
        match visit with
        | None => respond VisitNotFound
        | Some v =>
            if Visit.medicineGiven v
            then respond AlreadyDispensed
            else
              await! forOf items validate_item ;;
              await! forOf items deduct_item ;;
              await! Visit_save vid items ;;
              ret Success
        end
  | _, _, _ => respond InvalidRequest
  end.

(** The whole handler: the [catch] block turns a thrown error into a 400
    answer carrying the error. *)
Definition giveMedicines (req : ReqBody) (st : Store) : Response * Store :=
  match giveMedicines_try req st with
  | (st', inr r) => (r, st')
  | (st', inl (Return r)) => (r, st')
  | (st', inl (Throw e)) => (Failed e, st')
  end.

(** Requests handled one after another. *)
Fixpoint serve (reqs : list ReqBody) (st : Store) : list Response * Store :=
  match reqs with
  | [] => ([], st)
  | req :: rest =>
      let '(r, st1) := giveMedicines req st in
      let '(rs, st2) := serve rest st1 in
      (r :: rs, st2)
  end.

(** ** The handler as a machine stepping from [await] to [await]

    Node runs the code between two [await]s without interruption, and each
    awaited operation is one access to the store; another invocation of the
    handler can run in between.  A [Thread] is one invocation, suspended at
    an [await] (or not started, or finished); [step] resumes it up to the
    next one. *)

Inductive Thread : Type :=
  | Start (req : ReqBody)
  | AtFindVisit (vid : string) (items : list Item.t)
  | AtValidate (vid : string) (items rest : list Item.t)
  | AtDeductFind (vid : string) (items rest : list Item.t)
  | AtDeductSave (vid : string) (items rest : list Item.t) (i : nat)
      (m : Medicine.doc)
  | AtVisitSave (vid : string) (items : list Item.t)
  | Finished (r : Response).

Definition step (t : Thread) (st : Store) : Thread * Store :=
  match t with
  | Start req =>
      match visitId req, hospitalId req, medicines req with
      | Some vid, Some hid, Some items =>
          if bool_decide (vid = EmptyString) || bool_decide (hid = EmptyString)
          then (Finished InvalidRequest, st)
          else (AtFindVisit vid items, st)
      | _, _, _ => (Finished InvalidRequest, st)
      end
  | AtFindVisit vid items =>
      match Visit.findById vid (Visits st) with
      | None => (Finished VisitNotFound, st)
      | Some v =>
          if Visit.medicineGiven v
          then (Finished AlreadyDispensed, st)
          else (AtValidate vid items items, st)
      end
  | AtValidate vid items [] => (AtDeductFind vid items items, st)
  | AtValidate vid items (item :: rest) =>
      match Medicine.findOne (Item.medicineName item) (Medicines st) with
      | None => (Finished (MedicineNotFound (Item.medicineName item)), st)
      | Some (_, m) =>
          if Medicine.quantity m <? Item.quantity item
          then (Finished (InsufficientStock (Item.medicineName item)
                            (Medicine.quantity m) (Item.quantity item)), st)
          else (AtValidate vid items rest, st)
      end
  | AtDeductFind vid items [] => (AtVisitSave vid items, st)
  | AtDeductFind vid items (item :: rest) =>
      match Medicine.findOne (Item.medicineName item) (Medicines st) with
      | Some (i, m) =>
          (AtDeductSave vid items rest i
             (Medicine.set_quantity
                (js_minus (Medicine.quantity m) (Item.quantity item)) m), st)
      | None => (AtDeductFind vid items rest, st)
      end
  | AtDeductSave vid items rest i m =>
      match save_error m with
      | Some e => (Finished (Failed e), st)
      | None =>
          (AtDeductFind vid items rest,
           mkStore (Medicine.update i (Medicine.quantity m) (Medicines st))
             (Visits st))
      end
  | AtVisitSave vid items =>
      match Visit.markDispensed vid items (Visits st) with
      | Some visits => (Finished Success, mkStore (Medicines st) visits)
      | None => (Finished (Failed VersionError), st)
      end
  | Finished r => (Finished r, st)
  end.

(** One invocation run on its own for [fuel] steps. *)
Fixpoint run (fuel : nat) (t : Thread) (st : Store) : Thread * Store :=
  match fuel with
  | O => (t, st)
  | S fuel' => let '(t', st') := step t st in run fuel' t' st'
  end.

(** Several invocations in flight over one store. *)
Record Config : Type := mkConfig {
  threads : list Thread;
  store : Store
}.

(** The scheduler resumes thread [i]. *)
Definition resume (i : nat) (c : Config) : Config :=
  match threads c !! i with
  | Some t =>
      let '(t', st') := step t (store c) in
      mkConfig (<[i := t']> (threads c)) st'
  | None => c
  end.

(** A schedule is the order in which threads are resumed. *)
Definition schedule (sched : list nat) (c : Config) : Config :=
  foldl (λ c i, resume i c) c sched.

Definition launch (reqs : list ReqBody) (st : Store) : Config :=
  mkConfig (Start <$> reqs) st.

(** ** Predicates used in the statements *)

(** Every medicine's quantity is at least 0. *)
Definition stock_nonneg (st : Store) : Prop :=
  Forall (λ m, 0 <= Medicine.quantity m) (Medicines st).

(** The total amount a request asks of the medicine called [n]. *)
Fixpoint requested (n : string) (items : list Item.t) : Z :=
  match items with
  | [] => 0
  | item :: rest =>
      (if bool_decide (Item.medicineName item = n) then Item.quantity item else 0)
      + requested n rest
  end.

(** The check the first loop makes on one item: the medicine is found and
    holds at least the quantity asked. *)
Definition passes (st : Store) (item : Item.t) : Prop :=
  ∃ i m, Medicine.findOne (Item.medicineName item) (Medicines st) = Some (i, m)
         ∧ Item.quantity item <= Medicine.quantity m.

(** The error answers sent before the handler has written anything. *)
Definition non_fatal (r : Response) : bool :=
  match r with
  | InvalidRequest | VisitNotFound | AlreadyDispensed
  | MedicineNotFound _ | InsufficientStock _ _ _ => true
  | Failed _ | Success => false
  end.

(** The two answers of the first loop. *)
Definition validation_error (r : Response) : bool :=
  match r with
  | MedicineNotFound _ | InsufficientStock _ _ _ => true
  | _ => false
  end.


(** The request has both ids and an array of medicines. *)
Definition addressed (req : ReqBody) (vid : string) (items : list Item.t) : Prop :=
  visitId req = Some vid ∧ vid ≠ EmptyString ∧
  (∃ hid, hospitalId req = Some hid ∧ hid ≠ EmptyString) ∧
  medicines req = Some items.

(** The visit has been marked as served. *)
Definition dispensed (vid : string) (st : Store) : Prop :=
  ∃ v, Visits st !! vid = Some v ∧ Visit.medicineGiven v = true.

(** The invocations that have answered with success. *)
Definition succeeded (t : Thread) : nat :=
  match t with
  | Finished Success => 1%nat
  | _ => 0%nat
  end.

Definition successes (c : Config) : nat := sum_list (succeeded <$> threads c).

(** The visit an invocation works on. *)
Definition targets (vid : string) (t : Thread) : Prop :=
  match t with
  | Start req => visitId req = Some vid
  | AtFindVisit v _ | AtValidate v _ _ | AtDeductFind v _ _
  | AtDeductSave v _ _ _ _ | AtVisitSave v _ => v = vid
  | Finished _ => True
  end.

(** The request fails the presence check that opens the handler. *)
Definition malformed (req : ReqBody) : Prop :=
  visitId req = None ∨ visitId req = Some EmptyString ∨
  hospitalId req = None ∨ hospitalId req = Some EmptyString ∨
  medicines req = None.

(** The medicines array of a request, empty when there is none. *)
Definition items_of (req : ReqBody) : list Item.t := default [] (medicines req).

(** ** Sample data *)

Definition order (n : string) (q : Z) : Item.t :=
  Item.mk n q "1-0-1" "after food" "morning" "honey".

Definition visit0 : Visit.doc := Visit.mk [] false [].

Definition sample_store (stock : list (string * Z)) : Store :=
  mkStore ((λ p, Medicine.mk p.1 p.2 5) <$> stock) {[ "v1" := visit0 ]}.

Definition sample_req (items : list Item.t) : ReqBody :=
  mkReq (Some "v1") (Some "h1") (Some items).

(** The same store once visit [v1] has been served with [given]. *)
Definition served_store (stock : list (string * Z)) (given : list Item.t) : Store :=
  mkStore ((λ p, Medicine.mk p.1 p.2 5) <$> stock)
    {[ "v1" := Visit.mk [] true given ]}.


(** Two invocations in flight: each reads the visit before the other has
    written it, then the first runs to its end, then the second. *)
Definition overlapping : list nat :=
  [0; 0; 1; 1; 0; 0; 0; 0; 0; 0; 1; 1; 1; 1; 1; 1]%nat.

(** Both invocations read the stock before either saves it. *)
Definition lost_update : list nat :=
  [0; 0; 1; 1; 0; 0; 1; 1; 0; 1; 0; 0; 0; 1; 1; 1]%nat.

(** ** The catalogue handlers

    The other handlers of the controller that work on the [Medicine]
    collection.  Further modelling choices:
    - the collection carries the unique index on [name] that the schema
      declares and the connection builds ([autoIndex]); an insert or update
      that would give two documents one name fails with a duplicate-key
      error;
    - [save], [insertMany] run the schema validators; [findByIdAndUpdate]
      does not, and writes only the fields present in the update;
    - [sort({ name: 1 })] is the store's binary order on strings;
    - the match of [$regex] with option [i] is the store's, taken as a
      parameter. *)

(** The fields a handler reads from [req.body] (or from an element of its
    [medicines] array); a field that is absent is [None]. *)
Module Body.
Record t : Type := mk {
  name : option string;
  quantity : option Z;
  lowStockThreshold : option Z
}.
End Body.

(** An error thrown by the model or by the store. *)
Inductive Fault : Type :=
  | Invalid                      (* schema validation failed *)
  | DuplicateKey (n : string)    (* E11000 on the index of name *)
  | NegativeSkip (n : Z).        (* skip must be non-negative *)

(** The message of an error answer. *)
Inductive Refusal : Type :=
  | NameRequired       (* 'Name is required' *)
  | MedicineMissing    (* 'Medicine not found' *)
  | BadThreshold       (* 'Threshold quantity must be greater than 0 and less
                          than medicine quantity' *)
  | EmptyArray         (* 'Invalid or empty medicines array' *)
  | FieldsRequired     (* 'All fields (name, quantity, lowStockThreshold) are
                          required for each item' *)
  | Thrown (f : Fault). (* the catch block: error.message *)

(** [res.status(code).json(..)] *)
Inductive Reply (A : Type) : Type :=
  | Sent (code : Z) (payload : A)
  | Refused (code : Z) (why : Refusal).
Arguments Sent {A} code payload.
Arguments Refused {A} code why.

(** [new Medicine(body)] followed by the validators of the schema: all three
    paths are required (a required string is not empty), the two numbers
    have [min: 0]. *)
Definition Medicine_validate (b : Body.t) : option Medicine.doc :=
  match Body.name b, Body.quantity b, Body.lowStockThreshold b with
  | Some n, Some q, Some t =>
      if bool_decide (n ≠ EmptyString) && Medicine.quantity_valid q && (0 <=? t)
      then Some (Medicine.mk n q t)
      else None
  | _, _, _ => None
  end.

(** The insert of one document under the unique index on [name]. *)
Definition Medicine_insert (m : Medicine.doc) (coll : list Medicine.doc)
    : Fault + list Medicine.doc :=
  if bool_decide (Medicine.name m ∈ Medicine.name <$> coll)
  then inl (DuplicateKey (Medicine.name m))
  else inr (coll ++ [m]).

Definition addMedicine (b : Body.t) (coll : list Medicine.doc)
    : Reply Medicine.doc * list Medicine.doc :=
  match Medicine_validate b with
  | None => (Refused 400 (Thrown Invalid), coll)
  | Some m =>
      match Medicine_insert m coll with
      | inl f => (Refused 400 (Thrown f), coll)
      | inr coll' => (Sent 201 m, coll')
      end
  end.

(** The document after [$set] of the fields present in the update. *)
Definition apply_update (b : Body.t) (m : Medicine.doc) : Medicine.doc :=
  Medicine.mk (default (Medicine.name m) (Body.name b))
    (default (Medicine.quantity m) (Body.quantity b))
    (default (Medicine.lowStockThreshold m) (Body.lowStockThreshold b)).

(** [Medicine.findByIdAndUpdate(id, update, { new: true })]: no document,
    or the updated document; a change of [name] is checked against the
    names of the other documents. *)
Definition Medicine_findByIdAndUpdate (id : nat) (b : Body.t)
    (coll : list Medicine.doc) : Fault + (option Medicine.doc * list Medicine.doc) :=
  match coll !! id with
  | None => inr (None, coll)
  | Some m =>
      let m' := apply_update b m in
      if bool_decide (Medicine.name m' ≠ Medicine.name m
                      ∧ Medicine.name m' ∈ Medicine.name <$> delete id coll)
      then inl (DuplicateKey (Medicine.name m'))
      else inr (Some m', <[id := m']> coll)
  end.

(** The check made when both numbers are sent. *)
Definition threshold_rejected (b : Body.t) : bool :=
  match Body.lowStockThreshold b, Body.quantity b with
  | Some t, Some q => (t <? 0) || (q <=? t)
  | _, _ => false
  end.

Definition updateMedicine (id : nat) (b : Body.t) (coll : list Medicine.doc)
    : Reply Medicine.doc * list Medicine.doc :=
  if threshold_rejected b then (Refused 400 BadThreshold, coll)
  else
    match Medicine_findByIdAndUpdate id b coll with
    | inl f => (Refused 400 (Thrown f), coll)
    | inr (None, coll') => (Refused 404 MedicineMissing, coll')
    | inr (Some m', coll') => (Sent 200 m', coll')
    end.

Definition getMedicineById (id : nat) (coll : list Medicine.doc)
    : Reply Medicine.doc :=
  match coll !! id with
  | None => Refused 404 MedicineMissing
  | Some m => Sent 200 m
  end.

Definition getMedicineByExactName (name : option string)
    (coll : list Medicine.doc) : Reply Medicine.doc :=
  match name with
  | None => Refused 400 NameRequired
  | Some n =>
      if bool_decide (n = EmptyString) then Refused 400 NameRequired
      else match Medicine.findOne n coll with
           | None => Refused 404 MedicineMissing
           | Some (_, m) => Sent 200 m
           end
  end.

(** A document together with its [_id]. *)
Definition with_ids (coll : list Medicine.doc) : list (nat * Medicine.doc) :=
  imap (λ i m, (i, m)) coll.

(** The order of [sort({ name: 1 })]. *)
Definition by_name (p1 p2 : nat * Medicine.doc) : Prop :=
  String.leb (Medicine.name p1.2) (Medicine.name p2.2) = true.

Global Instance by_name_dec p1 p2 : Decision (by_name p1 p2).
Proof. unfold by_name. apply _. Defined.

Definition sort_by_name (docs : list (nat * Medicine.doc))
    : list (nat * Medicine.doc) :=
  merge_sort by_name docs.

Definition getMedicineNames (coll : list Medicine.doc)
    : Reply (list (nat * string)) :=
  Sent 200 ((λ p, (p.1, Medicine.name p.2)) <$> sort_by_name (with_ids coll)).

(** The elements of the [medicines] array that the loop of
    [bulkCreateMedicines] turns down. *)
Definition field_missing (b : Body.t) : bool :=
  match Body.name b, Body.quantity b, Body.lowStockThreshold b with
  | Some n, Some _, Some _ => bool_decide (n = EmptyString)
  | _, _, _ => true
  end.

(** The ordered insert of the store: one document after the other, up to
    the first that fails; what went in before stays. *)
Fixpoint insert_ordered (ms : list Medicine.doc) (coll : list Medicine.doc)
    : option Fault * list Medicine.doc :=
  match ms with
  | [] => (None, coll)
  | m :: rest =>
      match Medicine_insert m coll with
      | inl f => (Some f, coll)
      | inr coll' => insert_ordered rest coll'
      end
  end.

(** [Medicine.insertMany(docs)]: every document is validated first, and
    nothing is sent to the store unless all are valid. *)
Definition Medicine_insertMany (items : list Body.t) (coll : list Medicine.doc)
    : (Fault + list Medicine.doc) * list Medicine.doc :=
  match mapM Medicine_validate items with
  | None => (inl Invalid, coll)
  | Some ms =>
      match insert_ordered ms coll with
      | (Some f, coll') => (inl f, coll')
      | (None, coll') => (inr ms, coll')
      end
  end.

Definition bulkCreateMedicines (medicines : option (list Body.t))
    (coll : list Medicine.doc) : Reply (list Medicine.doc) * list Medicine.doc :=
  match medicines with
  | None | Some [] => (Refused 400 EmptyArray, coll)
  | Some items =>
      if existsb field_missing items then (Refused 400 FieldsRequired, coll)
      else match Medicine_insertMany items coll with
           | (inl f, coll') => (Refused 400 (Thrown f), coll')
           | (inr created, coll') => (Sent 201 created, coll')
           end
  end.



Section listing.
Variable regex_i : string → string → bool.



End listing.

(** The invariants the schema and its index ask of the collection. *)
Definition catalogue_ok (coll : list Medicine.doc) : Prop :=
  NoDup (Medicine.name <$> coll)
  ∧ Forall (λ m, Medicine.name m ≠ EmptyString
                 ∧ 0 <= Medicine.quantity m
                 ∧ 0 <= Medicine.lowStockThreshold m) coll.


(** The bodies sent to [addMedicine] one after another. *)
Fixpoint add_each (items : list Body.t) (coll : list Medicine.doc)
    : list (Reply Medicine.doc) * list Medicine.doc :=
  match items with
  | [] => ([], coll)
  | b :: rest =>
      let '(r, coll1) := addMedicine b coll in
      let '(rs, coll2) := add_each rest coll1 in
      (r :: rs, coll2)
  end.

(** The requests that write to the store, and their effect on it. *)
Inductive Op : Type :=
  | Add (b : Body.t)
  | BulkCreate (medicines : option (list Body.t))
  | Update (id : nat) (b : Body.t)
  | Give (req : ReqBody).

Definition perform (op : Op) (st : Store) : Store :=
  match op with
  | Add b => mkStore (addMedicine b (Medicines st)).2 (Visits st)
  | BulkCreate ms => mkStore (bulkCreateMedicines ms (Medicines st)).2 (Visits st)
  | Update id b => mkStore (updateMedicine id b (Medicines st)).2 (Visits st)
  | Give req => (giveMedicines req st).2
  end.

Definition perform_all (ops : list Op) (st : Store) : Store :=
  foldl (λ s op, perform op s) st ops.

Definition is_update (op : Op) : bool :=
  match op with
  | Update _ _ => true
  | _ => false
  end.

(** Sample catalogue entries. *)
Definition entry (n : string) (q t : Z) : Body.t :=
  Body.mk (Some n) (Some q) (Some t).

(** * Numbers *)

Lemma round_double_big_positive a :
  2 ^ 53 <= a →
  1 <= Z.log2 a - 52 ∧ 0 < Z.shiftr a (Z.log2 a - 52).
Proof.
  intros Ha.
  assert (53 <= Z.log2 a) as Hlog.
  { change 53 with (Z.log2 (2 ^ 53)). by apply Z.log2_le_mono. }
  split; [lia|].
  rewrite Z.shiftr_div_pow2 by lia.
  destruct (Z.log2_spec a) as [Hlow _]; [lia|].
  apply Z.div_str_pos. split; [by apply Z.pow_pos_nonneg; lia|].
  etrans; [|exact Hlow]. apply Z.pow_le_mono_r; lia.
Qed.


(** Rounding keeps the sign. *)
Lemma round_double_sign x :
  (0 <= x → 0 <= round_double x) ∧ (x < 0 → round_double x < 0).
Proof.
  unfold round_double. cbv zeta.
  destruct (Z.abs x <? 2 ^ 53) eqn:E; [done|].
  apply Z.ltb_ge in E.
  destruct (round_double_big_positive (Z.abs x) E) as [Hshift Hq].
  set (shift := Z.log2 (Z.abs x) - 52) in *.
  set (q := Z.shiftr (Z.abs x) shift) in *.
  assert (∀ q', 0 < q' →
            (0 <= x → 0 <= Z.sgn x * Z.shiftl q' shift)
            ∧ (x < 0 → Z.sgn x * Z.shiftl q' shift < 0)) as H.
  { intros q' Hq'.
    assert (0 < Z.shiftl q' shift) as Hpos.
    { rewrite Z.shiftl_mul_pow2 by lia.
      apply Z.mul_pos_pos; [done|]. apply Z.pow_pos_nonneg; lia. }
    split; intros Hx.
    - destruct (Z.sgn_spec x) as [[? ->]|[[? ->]|[? ->]]]; lia.
    - rewrite (Z.sgn_neg x) by done. lia. }
  destruct (_ || _); apply H; lia.
Qed.



Lemma js_minus_neg a b : a < b → js_minus a b < 0.
Proof. intros H. apply round_double_sign. lia. Qed.

(** The case that separates a double from an integer: 2^53 + 1 is not a
    double, and the tie goes to the even neighbour. *)
Example js_minus_rounds :
  js_minus (2 ^ 53 + 2) 1 = 2 ^ 53 ∧ js_minus (2 ^ 53 + 4) 1 = 2 ^ 53 + 4.
Proof. split; reflexivity. Qed.

(** Only the last answer of the handler goes out with status 200. *)
Lemma status_ok r : status r = 200 ↔ r = Success.
Proof. destruct r; simpl; split; (done || lia || discriminate). Qed.

(** Scenario 1 of the spec. *)
Example scenario1 :
  giveMedicines (sample_req [order "Paracetamol" 10]) (sample_store [("Paracetamol", 100)])
  = (Success,
     mkStore [Medicine.mk "Paracetamol" 90 5]
       {[ "v1" := Visit.mk [] true [order "Paracetamol" 10] ]}).
Proof. vm_compute. reflexivity. Qed.

(** ** The [Medicine] collection under [update] *)

Section collection.
Implicit Types (coll : list Medicine.doc) (m : Medicine.doc) (i j : nat) (q : Z).

Lemma set_quantity_name q m : Medicine.name (Medicine.set_quantity q m) = Medicine.name m.
Proof. reflexivity. Qed.


Lemma update_length i q coll : length (Medicine.update i q coll) = length coll.
Proof. apply length_alter. Qed.

Lemma update_lookup i q coll j :
  Medicine.update i q coll !! j
  = if decide (i = j) then Medicine.set_quantity q <$> coll !! j else coll !! j.
Proof.
  unfold Medicine.update. rewrite list_lookup_alter.
  case_decide; by subst.
Qed.

Lemma update_names i q coll :
  Medicine.name <$> Medicine.update i q coll = Medicine.name <$> coll.
Proof.
  apply list_eq; intros j. rewrite !list_lookup_fmap, update_lookup.
  case_decide; [|done]. by destruct (coll !! j).
Qed.

Lemma update_thresholds i q coll :
  Medicine.lowStockThreshold <$> Medicine.update i q coll
  = Medicine.lowStockThreshold <$> coll.
Proof.
  apply list_eq; intros j. rewrite !list_lookup_fmap, update_lookup.
  case_decide; [|done]. by destruct (coll !! j).
Qed.


Lemma findOne_Some n coll i m :
  Medicine.findOne n coll = Some (i, m) → coll !! i = Some m ∧ Medicine.name m = n.
Proof. unfold Medicine.findOne. intros (? & ? & _)%list_find_Some. done. Qed.

Lemma findOne_None n coll :
  Medicine.findOne n coll = None ↔ n ∉ Medicine.name <$> coll.
Proof.
  unfold Medicine.findOne. rewrite list_find_None, Forall_forall, list_elem_of_fmap.
  split.
  - intros H (m & -> & Hm). by apply (H m).
  - intros H m Hm Hn. apply H. by exists m.
Qed.
End collection.

(** ** The two loops *)

Ltac unfold_handler :=
  unfold bind, ret, respond, throw, Medicine_findOne, Medicine_save,
    Visit_findById, Visit_save in *.

Lemma forOf_cons {A} (x : A) xs body st :
  forOf (x :: xs) body st
  = match body x st with
    | (st1, inr _) => forOf xs body st1
    | (st1, inl e) => (st1, inl e)
    end.
Proof. reflexivity. Qed.

Lemma forOf_app {A} (xs ys : list A) body st :
  forOf (xs ++ ys) body st
  = match forOf xs body st with
    | (st1, inr _) => forOf ys body st1
    | (st1, inl e) => (st1, inl e)
    end.
Proof.
  revert st. induction xs as [|x xs IH]; intros st; [done|].
  rewrite <- app_comm_cons, !forOf_cons.
  destruct (body x st) as [st1 [e|[]]]; [done|]. apply IH.
Qed.

Lemma validate_item_eq item st :
  validate_item item st
  = (st, match Medicine.findOne (Item.medicineName item) (Medicines st) with
         | None => inl (Return (MedicineNotFound (Item.medicineName item)))
         | Some (_, m) =>
             if Medicine.quantity m <? Item.quantity item
             then inl (Return (InsufficientStock (Item.medicineName item)
                                 (Medicine.quantity m) (Item.quantity item)))
             else inr tt
         end).
Proof.
  unfold validate_item. unfold_handler.
  destruct (Medicine.findOne _ _) as [[i m]|]; [|done].
  by destruct (_ <? _).
Qed.

Lemma validate_item_passes item st :
  passes st item ↔ validate_item item st = (st, inr tt).
Proof.
  rewrite validate_item_eq. unfold passes. split.
  - intros (i & m & -> & Hq). by rewrite (proj2 (Z.ltb_ge _ _) Hq).
  - destruct (Medicine.findOne _ _) as [[i m]|]; [|done].
    destruct (_ <? _) eqn:E; [done|]. intros _. exists i, m. split; [done|].
    by apply Z.ltb_ge.
Qed.

(** The first loop never writes. *)
Lemma validate_store items st : (forOf items validate_item st).1 = st.
Proof.
  induction items as [|item items IH]; [done|].
  rewrite forOf_cons, validate_item_eq.
  destruct (Medicine.findOne _ _) as [[i m]|]; [|done].
  by destruct (_ <? _).
Qed.

Lemma validate_all_pass items st :
  Forall (passes st) items ↔ forOf items validate_item st = (st, inr tt).
Proof.
  induction items as [|item items IH]; [by split; [|constructor]|].
  rewrite Forall_cons, forOf_cons. split.
  - intros [H1 H2]. apply validate_item_passes in H1. rewrite H1. by apply IH.
  - intros H. pose proof (validate_item_eq item st) as E.
    destruct (validate_item item st) as [st1 [e|[]]] eqn:V; [congruence|].
    assert (st1 = st) as -> by congruence.
    split; [by apply validate_item_passes | by apply IH].
Qed.

(** Items that pass are gone through; the loop then stands at the next one. *)
Lemma validate_after_passing pre item post st :
  Forall (passes st) pre →
  forOf (pre ++ item :: post) validate_item st
  = match Medicine.findOne (Item.medicineName item) (Medicines st) with
    | None => (st, inl (Return (MedicineNotFound (Item.medicineName item))))
    | Some (_, m) =>
        if Medicine.quantity m <? Item.quantity item
        then (st, inl (Return (InsufficientStock (Item.medicineName item)
                                 (Medicine.quantity m) (Item.quantity item))))
        else forOf post validate_item st
    end.
Proof.
  intros Hpre.
  rewrite forOf_app, (proj1 (validate_all_pass pre st) Hpre).
  rewrite forOf_cons, validate_item_eq.
  destruct (Medicine.findOne _ _) as [[i m]|]; [|done].
  by destruct (_ <? _).
Qed.

(** When it exits, it does so with one of its two answers. *)
Lemma validate_exit items st st' e :
  forOf items validate_item st = (st', inl e) →
  st' = st ∧ ∃ r, e = Return r ∧ validation_error r = true.
Proof.
  intros H. split; [by rewrite <- (validate_store items st), H|].
  revert H. induction items as [|item items IH]; [done|].
  rewrite forOf_cons, validate_item_eq.
  destruct (Medicine.findOne _ _) as [[i m]|].
  - destruct (_ <? _); [|done]. intros [= <- <-]. eauto.
  - intros [= <- <-]. eauto.
Qed.

(** What [save] asks of the document in hand. *)
Lemma save_error_None m :
  save_error m = None ↔
  0 <= Medicine.quantity m
  ∧ Medicine.name m ≠ EmptyString
  ∧ 0 <= Medicine.lowStockThreshold m.
Proof.
  unfold save_error, Medicine.quantity_valid.
  destruct (0 <=? Medicine.quantity m) eqn:Q; simpl.
  - apply Z.leb_le in Q. case_bool_decide as N.
    + split; [done|]. by intros (_ & ? & _).
    + destruct (Medicine.lowStockThreshold m <? 0) eqn:T.
      * apply Z.ltb_lt in T. split; [done|]. intros (_ & _ & ?). lia.
      * apply Z.ltb_ge in T. done.
  - apply Z.leb_gt in Q. split; [done|]. intros (? & _). lia.
Qed.

Lemma save_error_quantity m :
  Medicine.quantity m < 0 →
  save_error m = Some (ValidationError "quantity" (Medicine.quantity m)).
Proof.
  intros H. unfold save_error, Medicine.quantity_valid.
  by rewrite (proj2 (Z.leb_gt _ _) H).
Qed.

Lemma deduct_item_eq item st :
  deduct_item item st
  = match Medicine.findOne (Item.medicineName item) (Medicines st) with
    | Some (i, m) =>
        let q := js_minus (Medicine.quantity m) (Item.quantity item) in
        match save_error (Medicine.set_quantity q m) with
        | None => (mkStore (Medicine.update i q (Medicines st)) (Visits st), inr tt)
        | Some e => (st, inl (Throw e))
        end
    | None => (st, inr tt)
    end.
Proof.
  unfold deduct_item. unfold_handler.
  destruct (Medicine.findOne _ _) as [[i m]|]; [|done].
  unfold Medicine_save. cbv zeta. by destruct (save_error _).
Qed.

(** A property kept by every accepted save of the second loop is kept by the
    loop, whether it runs to its end or is left by a throw. *)
Lemma deduct_invariant (P : Store → Prop) items :
  (∀ st item i m,
     P st → item ∈ items →
     Medicine.findOne (Item.medicineName item) (Medicines st) = Some (i, m) →
     0 <= js_minus (Medicine.quantity m) (Item.quantity item) →
     P (mkStore (Medicine.update i
                   (js_minus (Medicine.quantity m) (Item.quantity item))
                   (Medicines st)) (Visits st))) →
  ∀ st st' o, forOf items deduct_item st = (st', o) → P st → P st'.
Proof.
  induction items as [|item items IH]; intros Hstep st st' o.
  - by intros [= <- <-].
  - rewrite forOf_cons, deduct_item_eq.
    destruct (Medicine.findOne _ _) as [[i m]|] eqn:F; cbv zeta.
    + destruct (save_error _) as [e|] eqn:V.
      * by intros [= <- <-].
      * apply save_error_None in V as (Hq & _). simpl in Hq.
        intros H HP. eapply IH; [|exact H|].
        -- intros ???? ? ?. apply Hstep; [done|by right].
        -- apply Hstep; [done|by left|done|done].
    + intros H HP. eapply IH; [|exact H|done].
      intros ???? ? ?. apply Hstep; [done|by right].
Qed.

Lemma deduct_visits items st st' o :
  forOf items deduct_item st = (st', o) → Visits st' = Visits st.
Proof.
  intros H. by eapply (deduct_invariant (λ s, Visits s = Visits st)) in H.
Qed.

Lemma deduct_names items st st' o :
  forOf items deduct_item st = (st', o) →
  Medicine.name <$> Medicines st' = Medicine.name <$> Medicines st.
Proof.
  intros H.
  eapply (deduct_invariant
            (λ s, Medicine.name <$> Medicines s = Medicine.name <$> Medicines st)) in H;
    [done| |done].
  intros s item i m Hs _ _ _. simpl. by rewrite update_names.
Qed.

Lemma deduct_thresholds items st st' o :
  forOf items deduct_item st = (st', o) →
  Medicine.lowStockThreshold <$> Medicines st'
  = Medicine.lowStockThreshold <$> Medicines st.
Proof.
  intros H.
  eapply (deduct_invariant
            (λ s, Medicine.lowStockThreshold <$> Medicines s
                  = Medicine.lowStockThreshold <$> Medicines st)) in H;
    [done| |done].
  intros s item i m Hs _ _ _. simpl. by rewrite update_thresholds.
Qed.

Lemma update_nonneg i q coll :
  0 <= q →
  Forall (λ m, 0 <= Medicine.quantity m) coll →
  Forall (λ m, 0 <= Medicine.quantity m) (Medicine.update i q coll).
Proof.
  intros Hq H. apply Forall_lookup. intros j m. rewrite update_lookup.
  case_decide.
  - destruct (coll !! j); intros [= <-]. done.
  - intros Hj. by eapply (Forall_lookup_1 _ _ _ _ H).
Qed.

Lemma deduct_nonneg items st st' o :
  forOf items deduct_item st = (st', o) → stock_nonneg st → stock_nonneg st'.
Proof.
  apply (deduct_invariant stock_nonneg).
  intros s item i m Hs _ _ Hq. by apply update_nonneg.
Qed.

(** Documents whose name no item carries are left as they are. *)
Lemma deduct_frame items st st' o i m :
  forOf items deduct_item st = (st', o) →
  Medicines st !! i = Some m →
  Medicine.name m ∉ Item.medicineName <$> items →
  Medicines st' !! i = Some m.
Proof.
  intros H Hi Hn.
  eapply (deduct_invariant (λ s, Medicines s !! i = Some m)) in H; [done| |done].
  intros s item j m' Hs Hitem [Hj Hname]%findOne_Some _. simpl.
  rewrite update_lookup. case_decide; [|done]. subst j.
  exfalso. apply Hn. apply list_elem_of_fmap. exists item. split; [|done].
  congruence.
Qed.

Lemma save_error_not_version m : save_error m ≠ Some VersionError.
Proof.
  unfold save_error. destruct (negb _); [done|].
  case_bool_decide; [done|]. by destruct (_ <? _).
Qed.

(** The only way out of the second loop is an error of a validator. *)
Lemma deduct_exit items st st' e :
  forOf items deduct_item st = (st', inl e) →
  ∃ err, err ≠ VersionError ∧ e = Throw err.
Proof.
  revert st. induction items as [|item items IH]; intros st; [done|].
  rewrite forOf_cons, deduct_item_eq.
  destruct (Medicine.findOne _ _) as [[i m]|]; cbv zeta; [|by apply IH].
  destruct (save_error _) as [err|] eqn:V; [|by apply IH].
  intros [= <- <-]. exists err. split; [|done].
  intros ->. by apply save_error_not_version in V.
Qed.

(** ** The handler, case by case *)

Lemma malformed_or_addressed req :
  malformed req ∨ ∃ vid items, addressed req vid items.
Proof.
  unfold malformed, addressed.
  destruct req as [[vid|] [hid|] [items|]]; simpl; eauto 10.
  destruct (decide (vid = EmptyString)) as [->|]; [eauto|].
  destruct (decide (hid = EmptyString)) as [->|]; [eauto 10|].
  right. exists vid, items. eauto 10.
Qed.

Lemma malformed_not_addressed req vid items :
  malformed req → addressed req vid items → False.
Proof.
  unfold malformed, addressed.
  intros H (Hv & Hne & (hid & Hh & Hhne) & Hm). rewrite Hv, Hh, Hm in H.
  destruct H as [?|[?|[?|[?|?]]]]; congruence.
Qed.

Lemma giveMedicines_malformed req st :
  malformed req → giveMedicines req st = (InvalidRequest, st).
Proof.
  unfold malformed, giveMedicines, giveMedicines_try.
  destruct req as [[vid|] [hid|] [items|]]; simpl; try done.
  intros [?|[[= ->]|[?|[[= ->]|?]]]]; try done.
  by rewrite orb_true_r.
Qed.

Lemma giveMedicines_addressed req vid items st :
  addressed req vid items →
  giveMedicines req st
  = match Visits st !! vid with
    | None => (VisitNotFound, st)
    | Some v =>
        if Visit.medicineGiven v then (AlreadyDispensed, st)
        else match forOf items validate_item st with
             | (_, inl (Return r)) => (r, st)
             | (_, inl (Throw e)) => (Failed e, st)
             | (_, inr _) =>
                 match forOf items deduct_item st with
                 | (st1, inl (Return r)) => (r, st1)
                 | (st1, inl (Throw e)) => (Failed e, st1)
                 | (st1, inr _) =>
                     (Success,
                      mkStore (Medicines st1) (Visit.update vid items (Visits st1)))
                 end
             end
    end.
Proof.
  intros (Hv & Hne & (hid & Hh & Hhne) & Hm).
  unfold giveMedicines, giveMedicines_try. rewrite Hv, Hh, Hm.
  rewrite !bool_decide_eq_false_2 by done. simpl.
  unfold bind at 1. unfold Visit_findById, Visit.findById.
  destruct (Visits st !! vid) as [v|] eqn:Hv'; [|done].
  destruct (Visit.medicineGiven v) eqn:Hg; [done|].
  unfold bind at 1.
  pose proof (validate_store items st) as Hs.
  destruct (forOf items validate_item st) as [s [[r|e]|[]]]; simpl in Hs; subst s;
    [done..|].
  unfold bind at 1.
  destruct (forOf items deduct_item st) as [st1 [[r|e]|[]]] eqn:D; [done..|].
  unfold bind, Visit_save, Visit.markDispensed, ret.
  by rewrite (deduct_visits _ _ _ _ D), Hv', Hg.
Qed.

Lemma validation_error_non_fatal r : validation_error r = true → non_fatal r = true.
Proof. by destruct r. Qed.

(** The answers of an addressed request, sorted by the point the handler
    had reached. *)
Lemma giveMedicines_cases req vid items st :
  addressed req vid items →
  (giveMedicines req st = (VisitNotFound, st) ∧ Visits st !! vid = None)
  ∨ (giveMedicines req st = (AlreadyDispensed, st)
     ∧ ∃ v, Visits st !! vid = Some v ∧ Visit.medicineGiven v = true)
  ∨ (∃ r, giveMedicines req st = (r, st) ∧ validation_error r = true
          ∧ ¬ Forall (passes st) items)
  ∨ (∃ st1 err, giveMedicines req st = (Failed err, st1)
                ∧ err ≠ VersionError
                ∧ forOf items deduct_item st = (st1, inl (Throw err)))
  ∨ (∃ st1 v, giveMedicines req st
              = (Success, mkStore (Medicines st1) (Visit.update vid items (Visits st1)))
              ∧ Visits st !! vid = Some v ∧ Visit.medicineGiven v = false
              ∧ Forall (passes st) items
              ∧ forOf items deduct_item st = (st1, inr tt)).
Proof.
  intros Ha. rewrite (giveMedicines_addressed _ _ _ _ Ha).
  destruct (Visits st !! vid) as [v|] eqn:Hv; [|by left].
  destruct (Visit.medicineGiven v) eqn:Hg; [right; left; eauto|].
  do 2 right.
  destruct (forOf items validate_item st) as [s [e|[]]] eqn:V.
  - left. destruct (validate_exit _ _ _ _ V) as (-> & r & -> & Hr).
    exists r. split_and!; [done..|].
    intros HF%validate_all_pass. congruence.
  - right.
    assert (s = st) as -> by (by rewrite <- (validate_store items st), V).
    apply validate_all_pass in V.
    destruct (forOf items deduct_item st) as [st1 [e|[]]] eqn:D.
    + left. destruct (deduct_exit _ _ _ _ D) as (q & Hq & ->). eauto.
    + right. eauto 10.
Qed.

(** ** Rejection of requests *)

(** Scenario 2 of the spec. *)
Example scenario2 :
  giveMedicines (sample_req [order "Paracetamol" 10]) (sample_store [("Paracetamol", 5)])
  = (InsufficientStock "Paracetamol" 5 10, sample_store [("Paracetamol", 5)]).
Proof. vm_compute. reflexivity. Qed.

(** An order for a negative amount passes both loops and adds to the stock. *)
Example negative_quantity_accepted :
  giveMedicines (sample_req [order "Paracetamol" (-5)]) (sample_store [("Paracetamol", 100)])
  = (Success, served_store [("Paracetamol", 105)] [order "Paracetamol" (-5)]).
Proof. vm_compute. reflexivity. Qed.

(** C4, as stated, fails: a request whose items list is empty is not
    rejected; it is answered with success and the visit is marked. *)
Lemma empty_items_not_rejected :
  giveMedicines (sample_req []) (sample_store [("Paracetamol", 100)])
  = (Success, served_store [("Paracetamol", 100)] [])
  ∧ (giveMedicines (sample_req []) (sample_store [("Paracetamol", 100)])).1
    ≠ InvalidRequest.
Proof. split; [vm_compute; reflexivity | vm_compute; discriminate]. Qed.

(** C4, amended: the handler answers InvalidRequest, leaving the store as it
    is, exactly when the visit id or the hospital id is missing or empty or
    the medicines field is not an array; nothing about the items themselves
    (an empty array, a blank name, a non-positive quantity) leads to it. *)
Theorem invalid_request_iff_malformed req st :
  (malformed req → giveMedicines req st = (InvalidRequest, st))
  ∧ ((giveMedicines req st).1 = InvalidRequest → malformed req).
Proof.
  split; [apply giveMedicines_malformed|].
  destruct (malformed_or_addressed req) as [|(vid & items & Ha)]; [done|].
  destruct (giveMedicines_cases req vid items st Ha)
    as [[-> _]|[[-> _]|[(r & -> & Hr & _)|[(st1 & q & -> & _)|(st1 & v & -> & _)]]]];
    simpl; try done.
  intros ->. done.
Qed.

Lemma invalid_request_iff_malformed_witness :
  giveMedicines (mkReq (Some "v1") None (Some [order "Paracetamol" 1]))
    (sample_store [("Paracetamol", 100)])
  = (InvalidRequest, sample_store [("Paracetamol", 100)]).
Proof.
  apply (proj1 (invalid_request_iff_malformed _ _)).
  unfold malformed. simpl. right. right. left. reflexivity.
Defined.

(** C5, as stated, fails: on a visit that is already dispensed, a body
    without a hospitalId is answered InvalidRequest, not AlreadyDispensed
    (the presence check comes before the visit is read). *)
Lemma dispensed_visit_malformed_body :
  let st := served_store [("Paracetamol", 90)] [order "Paracetamol" 10] in
  let req := mkReq (Some "v1") None (Some [order "Paracetamol" 10]) in
  Visits st !! "v1" = Some (Visit.mk [] true [order "Paracetamol" 10])
  ∧ giveMedicines req st = (InvalidRequest, st)
  ∧ (giveMedicines req st).1 ≠ AlreadyDispensed.
Proof. vm_compute. split_and!; [reflexivity..|discriminate]. Qed.

(** C5, amended: on a visit whose medicineGiven flag is already true the
    handler mutates nothing, whatever the request body: every quantity, the
    flag and givenMedicines are as before; the answer is AlreadyDispensed
    for every body that carries both ids and a medicines array, and
    InvalidRequest for a body that lacks one of them. *)
Theorem already_dispensed_mutates_nothing req vid v st :
  visitId req = Some vid →
  Visits st !! vid = Some v →
  Visit.medicineGiven v = true →
  (giveMedicines req st).2 = st
  ∧ (∀ items, addressed req vid items → giveMedicines req st = (AlreadyDispensed, st))
  ∧ (malformed req → giveMedicines req st = (InvalidRequest, st)).
Proof.
  intros Hvid Hv Hg.
  assert (∀ items, addressed req vid items → giveMedicines req st = (AlreadyDispensed, st))
    as Hgiven.
  { intros items Ha. by rewrite (giveMedicines_addressed _ _ _ _ Ha), Hv, Hg. }
  split_and!; [|done|apply giveMedicines_malformed].
  destruct (malformed_or_addressed req) as [Hm|(vid' & items & Ha)].
  - by rewrite (giveMedicines_malformed _ _ Hm).
  - assert (vid' = vid) as -> by (destruct Ha as [Ha _]; congruence).
    by rewrite (Hgiven _ Ha).
Qed.

Lemma addressed_sample items : addressed (sample_req items) "v1" items.
Proof.
  unfold addressed, sample_req; simpl.
  split_and!; [reflexivity | discriminate | | reflexivity].
  exists "h1". split; [reflexivity | discriminate].
Defined.

(** Scenario 3 of the spec, through C5. *)
Lemma already_dispensed_mutates_nothing_witness :
  giveMedicines (sample_req [order "Paracetamol" 10])
    (served_store [("Paracetamol", 90)] [order "Paracetamol" 10])
  = (AlreadyDispensed, served_store [("Paracetamol", 90)] [order "Paracetamol" 10]).
Proof.
  apply (proj1 (proj2 (already_dispensed_mutates_nothing
                  (sample_req [order "Paracetamol" 10]) "v1"
                  (Visit.mk [] true [order "Paracetamol" 10])
                  (served_store [("Paracetamol", 90)] [order "Paracetamol" 10])
                  eq_refl eq_refl eq_refl)) [order "Paracetamol" 10]).
  apply addressed_sample.
Defined.

(** C10: an empty medicines array, with both ids present and the visit not
    yet served, is accepted: success, the flag set, givenMedicines the empty
    list, the inventory untouched. *)
Theorem empty_array_accepted req vid v st :
  addressed req vid [] →
  Visits st !! vid = Some v →
  Visit.medicineGiven v = false →
  giveMedicines req st
  = (Success,
     mkStore (Medicines st)
       (<[vid := Visit.mk (Visit.prescribedMedicines v) true []]> (Visits st))).
Proof.
  intros Ha Hv Hg. rewrite (giveMedicines_addressed _ _ _ _ Ha), Hv, Hg. simpl.
  unfold ret, Visit.update. by rewrite (alter_alt_Some _ _ _ _ Hv).
Qed.

Lemma empty_array_accepted_witness :
  giveMedicines (sample_req []) (sample_store [("Paracetamol", 100)])
  = (Success,
     mkStore (Medicines (sample_store [("Paracetamol", 100)]))
       (<["v1" := Visit.mk [] true []]> (Visits (sample_store [("Paracetamol", 100)])))).
Proof.
  apply (empty_array_accepted _ "v1" visit0).
  - apply addressed_sample.
  - vm_compute. reflexivity.
  - reflexivity.
Defined.

(** C7: the first loop checks the items in request order and stops at the
    first one that fails: with every earlier item passing, an item whose
    medicine is absent gives MedicineNotFound with its name, and an item
    whose medicine holds less than asked gives InsufficientStock with the
    name, the available and the required quantity; what follows the failing
    item plays no part, and the store is left as it is. *)
Theorem validation_fails_fast req vid v st pre item post :
  addressed req vid (pre ++ item :: post) →
  Visits st !! vid = Some v →
  Visit.medicineGiven v = false →
  Forall (passes st) pre →
  (Medicine.findOne (Item.medicineName item) (Medicines st) = None →
   giveMedicines req st = (MedicineNotFound (Item.medicineName item), st))
  ∧ (∀ i m,
       Medicine.findOne (Item.medicineName item) (Medicines st) = Some (i, m) →
       Medicine.quantity m < Item.quantity item →
       giveMedicines req st
       = (InsufficientStock (Item.medicineName item)
            (Medicine.quantity m) (Item.quantity item), st)).
Proof.
  intros Ha Hv Hg Hpre.
  rewrite (giveMedicines_addressed _ _ _ _ Ha), Hv, Hg.
  rewrite (validate_after_passing _ _ _ _ Hpre). split.
  - by intros ->.
  - intros i m -> Hq. by rewrite (proj2 (Z.ltb_lt _ _) Hq).
Qed.

Lemma validation_fails_fast_witness :
  giveMedicines
    (sample_req [order "Amla" 3; order "Paracetamol" 10; order "Triphala" 1; order "Amla" 50])
    (sample_store [("Amla", 10); ("Paracetamol", 5)])
  = (InsufficientStock "Paracetamol" 5 10,
     sample_store [("Amla", 10); ("Paracetamol", 5)])
  ∧ giveMedicines
      (sample_req [order "Amla" 3; order "Triphala" 1; order "Paracetamol" 10])
      (sample_store [("Amla", 10); ("Paracetamol", 5)])
    = (MedicineNotFound "Triphala", sample_store [("Amla", 10); ("Paracetamol", 5)]).
Proof.
  split.
  - apply (proj2 (validation_fails_fast _ "v1" visit0
                    (sample_store [("Amla", 10); ("Paracetamol", 5)])
                    [order "Amla" 3] (order "Paracetamol" 10)
                    [order "Triphala" 1; order "Amla" 50]
                    (addressed_sample _) eq_refl eq_refl
                    ltac:(repeat constructor;
                          exists 0%nat, (Medicine.mk "Amla" 10 5); split;
                          [reflexivity | simpl; lia]))
             1%nat (Medicine.mk "Paracetamol" 5 5)).
    + reflexivity.
    + simpl; lia.
  - apply (proj1 (validation_fails_fast _ "v1" visit0
                    (sample_store [("Amla", 10); ("Paracetamol", 5)])
                    [order "Amla" 3] (order "Triphala" 1)
                    [order "Paracetamol" 10]
                    (addressed_sample _) eq_refl eq_refl
                    ltac:(repeat constructor;
                          exists 0%nat, (Medicine.mk "Amla" 10 5); split;
                          [reflexivity | simpl; lia]))).
    reflexivity.
Defined.

(** ** What an error leaves behind *)

(** C6: whenever the handler answers with InvalidRequest, VisitNotFound,
    AlreadyDispensed, MedicineNotFound or InsufficientStock, the store is the
    one it started from: every stock is unchanged and a visit that was not
    dispensed is still not dispensed.  In particular a request [a; b] with
    [a] in sufficient stock and [b] absent from the inventory is answered
    MedicineNotFound for [b] with the store unchanged. *)
Theorem non_fatal_error_leaves_store req st :
  (∀ r st', giveMedicines req st = (r, st') → non_fatal r = true →
     st' = st
     ∧ ∀ vid v, Visits st !! vid = Some v → Visit.medicineGiven v = false →
                Visits st' !! vid = Some v)
  ∧ (∀ vid v a b,
       addressed req vid [a; b] →
       Visits st !! vid = Some v → Visit.medicineGiven v = false →
       passes st a →
       Medicine.findOne (Item.medicineName b) (Medicines st) = None →
       giveMedicines req st = (MedicineNotFound (Item.medicineName b), st)).
Proof.
  split.
  - intros r st' H Hr.
    assert (st' = st) as ->; [|done].
    destruct (malformed_or_addressed req) as [Hm|(vid & items & Ha)].
    + rewrite (giveMedicines_malformed _ _ Hm) in H. congruence.
    + destruct (giveMedicines_cases req vid items st Ha)
        as [[E _]|[[E _]|[(r' & E & _)|[(st1 & q & E & _)|(st1 & v & E & _)]]]];
        rewrite E in H; simplify_eq/=; done.
  - intros vid v a b Ha Hv Hg Hpass Hb.
    rewrite (giveMedicines_addressed _ _ _ _ Ha), Hv, Hg.
    change [a; b] with ([a] ++ b :: []).
    rewrite (validate_after_passing [a] b [] st) by (by repeat constructor).
    by rewrite Hb.
Qed.

(** Scenario 5 of the spec, through C6. *)
Lemma non_fatal_error_leaves_store_witness :
  giveMedicines (sample_req [order "Amla" 3; order "Brahmi" 1]) (sample_store [("Amla", 10)])
  = (MedicineNotFound "Brahmi", sample_store [("Amla", 10)])
  ∧ (sample_store [("Amla", 10)] = sample_store [("Amla", 10)]
     ∧ ∀ vid v, Visits (sample_store [("Amla", 10)]) !! vid = Some v →
                Visit.medicineGiven v = false →
                Visits (sample_store [("Amla", 10)]) !! vid = Some v).
Proof.
  assert (giveMedicines (sample_req [order "Amla" 3; order "Brahmi" 1])
            (sample_store [("Amla", 10)])
          = (MedicineNotFound "Brahmi", sample_store [("Amla", 10)])) as E.
  { apply (proj2 (non_fatal_error_leaves_store _ _) "v1" visit0
             (order "Amla" 3) (order "Brahmi" 1) (addressed_sample _)).
    - reflexivity.
    - reflexivity.
    - exists 0%nat, (Medicine.mk "Amla" 10 5). split; [reflexivity | simpl; lia].
    - reflexivity. }
  split; [exact E|].
  apply (proj1 (non_fatal_error_leaves_store _ _) _ _ E). reflexivity.
Defined.

(** ** Frame *)

(** C9: whatever the answer, a call leaves the name and the lowStockThreshold
    of every medicine as they were, leaves every medicine not named in the
    request entirely as it was, leaves every visit other than the one
    addressed as it was, and on that one changes at most medicineGiven and
    givenMedicines. *)
Theorem dispense_frame req st :
  let st' := (giveMedicines req st).2 in
  Medicine.name <$> Medicines st' = Medicine.name <$> Medicines st
  ∧ Medicine.lowStockThreshold <$> Medicines st'
    = Medicine.lowStockThreshold <$> Medicines st
  ∧ (∀ i m, Medicines st !! i = Some m →
            Medicine.name m ∉ Item.medicineName <$> items_of req →
            Medicines st' !! i = Some m)
  ∧ (∀ vid', visitId req ≠ Some vid' → Visits st' !! vid' = Visits st !! vid')
  ∧ (∀ vid, Visit.prescribedMedicines <$> Visits st' !! vid
            = Visit.prescribedMedicines <$> Visits st !! vid).
Proof.
  simpl.
  destruct (malformed_or_addressed req) as [Hm|(vid & items & Ha)].
  { rewrite (giveMedicines_malformed _ _ Hm). done. }
  assert (items_of req = items) as Hitems.
  { destruct Ha as (_ & _ & _ & Hmeds). unfold items_of. by rewrite Hmeds. }
  assert (visitId req = Some vid) as Hvid by apply Ha.
  destruct (giveMedicines_cases req vid items st Ha)
    as [[-> _]|[[-> _]|[(r & -> & _)|[(st1 & q & -> & _ & D)|(st1 & v & -> & Hv & _ & _ & D)]]]];
    simpl; try done.
  - rewrite (deduct_names _ _ _ _ D), (deduct_thresholds _ _ _ _ D),
      (deduct_visits _ _ _ _ D), Hitems.
    split_and!; try done.
    intros i m Hi Hn. by eapply deduct_frame.
  - rewrite (deduct_names _ _ _ _ D), (deduct_thresholds _ _ _ _ D),
      (deduct_visits _ _ _ _ D), Hitems.
    split_and!; try done.
    + intros i m Hi Hn. by eapply deduct_frame.
    + intros vid' Hne. unfold Visit.update. apply lookup_alter_ne. congruence.
    + intros vid'. unfold Visit.update. rewrite lookup_alter.
      case_decide; [|done]. subst vid'. by destruct (Visits st !! vid).
Qed.

(** ** The second loop on a request the stock can bear *)

Lemma requested_cons n item items :
  requested n (item :: items)
  = (if bool_decide (Item.medicineName item = n) then Item.quantity item else 0)
    + requested n items.
Proof. reflexivity. Qed.


Lemma requested_absent n items :
  n ∉ Item.medicineName <$> items → requested n items = 0.
Proof.
  induction items as [|item items IH]; [done|].
  rewrite fmap_cons, not_elem_of_cons, requested_cons. intros [Hn Hrest].
  rewrite bool_decide_eq_false_2 by done. rewrite IH by done. done.
Qed.




(** ** Successful dispensing *)


(** Saving re-validates the whole document: a medicine whose stored
    threshold is below 0 (written by an update, which validates nothing)
    cannot be dispensed at all, whatever its stock. *)
Example negative_threshold_blocks_the_save :
  giveMedicines (sample_req [order "Amla" 3])
    (mkStore [Medicine.mk "Amla" 10 (-4)] {[ "v1" := visit0 ]})
  = (Failed (ValidationError "lowStockThreshold" (-4)),
     mkStore [Medicine.mk "Amla" 10 (-4)] {[ "v1" := visit0 ]}).
Proof. vm_compute. reflexivity. Qed.

(** Beyond 2^53 the subtraction rounds: the stock 2^53 + 2 covers the total
    2^53 + 2 asked, yet the first decrement leaves 2^53, the second 0, and
    the third is refused. *)
Example rounding_loses_a_unit :
  giveMedicines (sample_req [order "Amla" 1; order "Amla" (2 ^ 53); order "Amla" 1])
    (sample_store [("Amla", 2 ^ 53 + 2)])
  = (Failed (ValidationError "quantity" (-1)), sample_store [("Amla", 0)]).
Proof. vm_compute. reflexivity. Qed.



(** ** A save refused in the second loop *)

(** C3, as stated, fails: the third decrement is refused because the stock of
    Amla (4 by then) is below the 6 asked; the decrements of Amla and Brahmi
    already made are not undone, and the answer is the validator's error, not
    InsufficientStock. *)
Lemma failed_commit_is_not_rolled_back :
  giveMedicines (sample_req [order "Amla" 6; order "Brahmi" 1; order "Amla" 6])
    (sample_store [("Amla", 10); ("Brahmi", 5)])
  = (Failed (ValidationError "quantity" (-2)),
     sample_store [("Amla", 4); ("Brahmi", 4)])
  ∧ Medicines (sample_store [("Amla", 4); ("Brahmi", 4)])
    ≠ Medicines (sample_store [("Amla", 10); ("Brahmi", 5)]).
Proof. split; [vm_compute; reflexivity | vm_compute; discriminate]. Qed.

(** C3, amended: during the second loop, if the save of some item is refused
    because the medicine's stock is below the item's quantity at that point,
    the handler stops there and answers with the validator's error (which
    carries the difference as JavaScript computes it); the store is the one
    the earlier items of that loop left (their decrements stay, nothing is
    undone), the refused decrement and the later items are not applied, and
    the visit is not marked. *)
Theorem refused_save_stops_the_commit req vid v st pre item post st1 i m :
  addressed req vid (pre ++ item :: post) →
  Visits st !! vid = Some v →
  Visit.medicineGiven v = false →
  Forall (passes st) (pre ++ item :: post) →
  forOf pre deduct_item st = (st1, inr tt) →
  Medicine.findOne (Item.medicineName item) (Medicines st1) = Some (i, m) →
  Medicine.quantity m < Item.quantity item →
  giveMedicines req st
  = (Failed (ValidationError "quantity"
               (js_minus (Medicine.quantity m) (Item.quantity item))), st1)
  ∧ Visits st1 = Visits st.
Proof.
  intros Ha Hv Hg Hpass Hpre F Hlt.
  rewrite (giveMedicines_addressed _ _ _ _ Ha), Hv, Hg.
  rewrite (proj1 (validate_all_pass _ st) Hpass).
  rewrite forOf_app, Hpre, forOf_cons, deduct_item_eq, F. cbv zeta.
  rewrite save_error_quantity by (simpl; by apply js_minus_neg).
  split; [done|]. by eapply deduct_visits.
Qed.

Lemma refused_save_stops_the_commit_witness :
  giveMedicines (sample_req [order "Amla" 6; order "Brahmi" 1; order "Amla" 6])
    (sample_store [("Amla", 10); ("Brahmi", 5)])
  = (Failed (ValidationError "quantity" (4 - 6)),
     sample_store [("Amla", 4); ("Brahmi", 4)])
  ∧ Visits (sample_store [("Amla", 4); ("Brahmi", 4)])
    = Visits (sample_store [("Amla", 10); ("Brahmi", 5)]).
Proof.
  apply (refused_save_stops_the_commit _ "v1" visit0
           (sample_store [("Amla", 10); ("Brahmi", 5)])
           [order "Amla" 6; order "Brahmi" 1] (order "Amla" 6) []
           (sample_store [("Amla", 4); ("Brahmi", 4)])
           0%nat (Medicine.mk "Amla" 4 5)).
  - apply addressed_sample.
  - vm_compute. reflexivity.
  - reflexivity.
  - repeat constructor.
    + exists 0%nat, (Medicine.mk "Amla" 10 5). split; [reflexivity | simpl; lia].
    + exists 1%nat, (Medicine.mk "Brahmi" 5 5). split; [reflexivity | simpl; lia].
    + exists 0%nat, (Medicine.mk "Amla" 10 5). split; [reflexivity | simpl; lia].
  - vm_compute. reflexivity.
  - reflexivity.
  - simpl. lia.
Defined.

(** ** Stock never goes below zero *)

Lemma giveMedicines_nonneg req st :
  stock_nonneg st → stock_nonneg (giveMedicines req st).2.
Proof.
  intros Hst.
  destruct (malformed_or_addressed req) as [Hm|(vid & items & Ha)].
  { by rewrite (giveMedicines_malformed _ _ Hm). }
  destruct (giveMedicines_cases req vid items st Ha)
    as [[-> _]|[[-> _]|[(r & -> & _)|[(st1 & q & -> & _ & D)|(st1 & v & -> & _ & _ & _ & D)]]]];
    simpl; try done.
  - by eapply deduct_nonneg.
  - unfold stock_nonneg. simpl. by eapply deduct_nonneg.
Qed.

Lemma serve_nonneg reqs st :
  stock_nonneg st → stock_nonneg (serve reqs st).2.
Proof.
  revert st. induction reqs as [|req reqs IH]; intros st Hst; [done|].
  simpl. pose proof (giveMedicines_nonneg req st Hst) as H1.
  destruct (giveMedicines req st) as [r st1]. simpl in H1.
  specialize (IH st1 H1). by destruct (serve reqs st1) as [rs st2].
Qed.

(** Whatever point a thread is suspended at, resuming it keeps the stock at
    or above zero: the only write to a quantity goes through the validator. *)
Lemma step_nonneg t st : stock_nonneg st → stock_nonneg (step t st).2.
Proof.
  intros Hst. destruct t as [req|vid items|vid items rest|vid items rest
                             |vid items rest i q|vid items|r]; simpl.
  - destruct (visitId req), (hospitalId req), (medicines req); try done.
    by destruct (_ || _).
  - destruct (Visit.findById _ _) as [v|]; [|done].
    by destruct (Visit.medicineGiven v).
  - destruct rest as [|item rest]; [done|].
    destruct (Medicine.findOne _ _) as [[i m]|]; [|done].
    by destruct (_ <? _).
  - destruct rest as [|item rest]; [done|].
    by destruct (Medicine.findOne _ _) as [[i m]|].
  - destruct (save_error q) as [e|] eqn:V; [done|].
    apply save_error_None in V as (Hq & _).
    unfold stock_nonneg. simpl. by apply update_nonneg.
  - by destruct (Visit.markDispensed _ _ _).
  - done.
Qed.

Lemma resume_nonneg i c : stock_nonneg (store c) → stock_nonneg (store (resume i c)).
Proof.
  intros Hc. unfold resume. destruct (threads c !! i) as [t|]; [|done].
  pose proof (step_nonneg t (store c) Hc) as H.
  by destruct (step t (store c)) as [t' st'].
Qed.

Lemma schedule_nonneg sched c :
  stock_nonneg (store c) → stock_nonneg (store (schedule sched c)).
Proof.
  revert c. induction sched as [|i sched IH]; intros c Hc; [done|].
  apply IH. by apply resume_nonneg.
Qed.

(** C1: from an inventory in which every quantity is at least 0, any
    sequence of dispense requests (whatever they list, the same medicine
    several times included) ends in an inventory in which every quantity is
    at least 0; and so is the inventory at every point in between, that is
    after any number of resumptions of the handlers, in any order. *)
Theorem stock_never_negative reqs st :
  stock_nonneg st →
  stock_nonneg (serve reqs st).2
  ∧ ∀ sched, stock_nonneg (store (schedule sched (launch reqs st))).
Proof.
  intros Hst. split; [by apply serve_nonneg|].
  intros sched. by apply schedule_nonneg.
Qed.

Lemma stock_never_negative_witness :
  stock_nonneg
    (serve [sample_req [order "Amla" 6; order "Amla" 6]; sample_req [order "Amla" 4]]
       (sample_store [("Amla", 10)])).2
  ∧ ∀ sched,
      stock_nonneg
        (store (schedule sched
                  (launch [sample_req [order "Amla" 6; order "Amla" 6];
                           sample_req [order "Amla" 4]]
                     (sample_store [("Amla", 10)])))).
Proof.
  apply stock_never_negative.
  repeat constructor. simpl. lia.
Defined.

(** ** The machine and the function agree

    A thread that is resumed again and again, with no other thread in
    between, ends with the answer and the store [giveMedicines] computes. *)

Lemma run_S n t st :
  run (S n) t st = run n (step t st).1 (step t st).2.
Proof. simpl. by destruct (step t st). Qed.

Lemma run_validate_loop vid items rest st :
  ∃ n, run n (AtValidate vid items rest) st
       = match forOf rest validate_item st with
         | (_, inl (Return r)) => (Finished r, st)
         | (_, inl (Throw e)) => (Finished (Failed e), st)
         | (_, inr _) => (AtDeductFind vid items items, st)
         end.
Proof.
  induction rest as [|item rest [n IH]]; [by exists 1%nat|].
  rewrite forOf_cons, validate_item_eq.
  destruct (Medicine.findOne (Item.medicineName item) (Medicines st))
    as [[i m]|] eqn:F.
  - destruct (Medicine.quantity m <? Item.quantity item) eqn:Q.
    + exists 1%nat. simpl. by rewrite F, Q.
    + exists (S n). rewrite run_S. simpl. by rewrite F, Q.
  - exists 1%nat. simpl. by rewrite F.
Qed.

Lemma run_deduct_loop vid items rest st :
  ∃ n, run n (AtDeductFind vid items rest) st
       = match forOf rest deduct_item st with
         | (st1, inl (Return r)) => (Finished r, st1)
         | (st1, inl (Throw e)) => (Finished (Failed e), st1)
         | (st1, inr _) => (AtVisitSave vid items, st1)
         end.
Proof.
  revert st. induction rest as [|item rest IH]; intros st; [by exists 1%nat|].
  rewrite forOf_cons, deduct_item_eq.
  destruct (Medicine.findOne (Item.medicineName item) (Medicines st))
    as [[i m]|] eqn:F; cbv zeta.
  - destruct (save_error (Medicine.set_quantity
                            (js_minus (Medicine.quantity m) (Item.quantity item)) m))
      as [e|] eqn:V.
    + exists 2%nat. rewrite !run_S. simpl. rewrite F. simpl. by rewrite V.
    + destruct (IH (mkStore (Medicine.update i
                               (js_minus (Medicine.quantity m) (Item.quantity item))
                               (Medicines st)) (Visits st))) as [n Hn].
      exists (S (S n)). rewrite !run_S. simpl. rewrite F. simpl. by rewrite V.
  - destruct (IH st) as [n Hn]. exists (S n). rewrite run_S. simpl. by rewrite F.
Qed.

Lemma run_app n1 n2 t st :
  run (n1 + n2) t st = run n2 (run n1 t st).1 (run n1 t st).2.
Proof.
  revert t st. induction n1 as [|n1 IH]; intros t st; [done|].
  rewrite Nat.add_succ_l, !run_S. apply IH.
Qed.

Lemma run_giveMedicines req st :
  ∃ n, run n (Start req) st = (Finished (giveMedicines req st).1, (giveMedicines req st).2).
Proof.
  destruct (malformed_or_addressed req) as [Hm|(vid & items & Ha)].
  { rewrite (giveMedicines_malformed _ _ Hm). exists 1%nat. simpl.
    destruct req as [[vid|] [hid|] [items|]]; simpl; try done.
    destruct Hm as [?|[[= ->]|[?|[[= ->]|?]]]]; try done.
    by rewrite orb_true_r. }
  rewrite (giveMedicines_addressed _ _ _ _ Ha).
  assert (step (Start req) st = (AtFindVisit vid items, st)) as S1.
  { destruct Ha as (Hv & Hne & (hid & Hh & Hhne) & Hm). simpl.
    rewrite Hv, Hh, Hm. by rewrite !bool_decide_eq_false_2. }
  destruct (Visits st !! vid) as [v|] eqn:Hv.
  2:{ exists 2%nat. rewrite run_S, S1. cbn [fst snd]. simpl.
      unfold Visit.findById. by rewrite Hv. }
  destruct (Visit.medicineGiven v) eqn:Hg.
  { exists 2%nat. rewrite run_S, S1. cbn [fst snd]. simpl.
    unfold Visit.findById. by rewrite Hv, Hg. }
  assert (step (AtFindVisit vid items) st = (AtValidate vid items items, st)) as S2.
  { simpl. unfold Visit.findById. by rewrite Hv, Hg. }
  assert (∀ n, run (S (S n)) (Start req) st = run n (AtValidate vid items items) st)
    as R0.
  { intros n. rewrite run_S, S1. cbn [fst snd]. by rewrite run_S, S2. }
  destruct (run_validate_loop vid items items st) as [n1 R1].
  destruct (forOf items validate_item st) as [s [[r|e]|[]]] eqn:V.
  - exists (S (S n1)). by rewrite R0.
  - exists (S (S n1)). by rewrite R0.
  - destruct (run_deduct_loop vid items items st) as [n2 R2].
    destruct (forOf items deduct_item st) as [st1 [[r|e]|[]]] eqn:D.
    + exists (S (S (n1 + n2))). by rewrite R0, run_app, R1.
    + exists (S (S (n1 + n2))). by rewrite R0, run_app, R1.
    + exists (S (S (n1 + (n2 + 1)))).
      rewrite R0, run_app, R1. cbn [fst snd]. rewrite run_app, R2.
      cbn [fst snd]. simpl. unfold Visit.markDispensed.
      by rewrite (deduct_visits _ _ _ _ D), Hv, Hg.
Qed.

(** Requests handled one after another are one of the schedules: each thread
    is resumed until it has finished before the next one is started. *)

Lemma schedule_app s1 s2 c : schedule (s1 ++ s2) c = schedule s2 (schedule s1 c).
Proof. apply foldl_app. Qed.

Lemma resume_middle pre t post st :
  resume (length pre) (mkConfig (pre ++ t :: post) st)
  = mkConfig (pre ++ (step t st).1 :: post) (step t st).2.
Proof.
  unfold resume. simpl. rewrite list_lookup_middle by done.
  destruct (step t st) as [t' st']. simpl. f_equal.
  replace (length pre) with (length pre + 0)%nat by lia.
  by rewrite insert_app_r.
Qed.

Lemma schedule_one_thread n pre t post st :
  schedule (replicate n (length pre)) (mkConfig (pre ++ t :: post) st)
  = mkConfig (pre ++ (run n t st).1 :: post) (run n t st).2.
Proof.
  revert t st. induction n as [|n IH]; intros t st; [done|].
  rewrite run_S. simpl. unfold schedule in IH. rewrite resume_middle. apply IH.
Qed.

Lemma serve_is_a_schedule reqs :
  ∀ pre st, ∃ sched,
    schedule sched (mkConfig (pre ++ (Start <$> reqs)) st)
    = mkConfig (pre ++ (Finished <$> (serve reqs st).1)) (serve reqs st).2.
Proof.
  induction reqs as [|req reqs IH]; intros pre st; [by exists []|].
  destruct (run_giveMedicines req st) as [n Hn].
  simpl. destruct (giveMedicines req st) as [r st1] eqn:G. simpl in Hn.
  destruct (IH (pre ++ [Finished r]) st1) as [sched Hs].
  destruct (serve reqs st1) as [rs st2] eqn:S. simpl in *.
  exists (replicate n (length pre) ++ sched).
  rewrite schedule_app, schedule_one_thread, Hn. simpl.
  rewrite <- !app_assoc in Hs. exact Hs.
Qed.

(** ** Several attempts on one visit *)

(** C8, as stated, fails: with two attempts for the same visit in flight,
    each passing the medicineGiven check before the other has saved the
    visit, one is answered with success; the other has deducted its items by
    the time its save of the visit is refused, fails with that error and
    not with AlreadyDispensed, and its deduction stays: the stock goes from
    100 to 80, where one successful dispense deducts 10. *)
Lemma overlapping_attempts_deduct_twice :
  let req := sample_req [order "Paracetamol" 10] in
  let st := sample_store [("Paracetamol", 100)] in
  let c := schedule overlapping (launch [req; req] st) in
  threads c = [Finished Success; Finished (Failed VersionError)]
  ∧ store c = served_store [("Paracetamol", 80)] [order "Paracetamol" 10]
  ∧ giveMedicines req st
    = (Success, served_store [("Paracetamol", 90)] [order "Paracetamol" 10]).
Proof. vm_compute. done. Qed.

(** Under another schedule both attempts read the stock before either saves
    it: the second save of the medicine overwrites the first. *)
Example overlapping_attempts_lose_an_update :
  let req := sample_req [order "Paracetamol" 10] in
  let c := schedule lost_update (launch [req; req] (sample_store [("Paracetamol", 100)])) in
  threads c = [Finished Success; Finished (Failed VersionError)]
  ∧ store c = served_store [("Paracetamol", 90)] [order "Paracetamol" 10].
Proof. vm_compute. done. Qed.

Lemma giveMedicines_keeps_dispensed req vid st :
  dispensed vid st → dispensed vid (giveMedicines req st).2.
Proof.
  intros (v & Hv & Hg).
  destruct (malformed_or_addressed req) as [Hm|(vid' & items & Ha)].
  { rewrite (giveMedicines_malformed _ _ Hm). by exists v. }
  destruct (giveMedicines_cases req vid' items st Ha)
    as [[-> _]|[[-> _]|[(r & -> & _)|[(st1 & q & -> & _ & D)|(st1 & v' & -> & _ & _ & _ & D)]]]];
    simpl; try (by exists v).
  - exists v. by rewrite (deduct_visits _ _ _ _ D).
  - unfold dispensed. simpl. rewrite (deduct_visits _ _ _ _ D).
    unfold Visit.update. rewrite lookup_alter. case_decide.
    + subst vid'. rewrite Hv. by eexists.
    + by exists v.
Qed.

Lemma success_marks_the_visit req vid items st st' :
  addressed req vid items →
  giveMedicines req st = (Success, st') →
  dispensed vid st'.
Proof.
  intros Ha H.
  destruct (giveMedicines_cases req vid items st Ha)
    as [[E _]|[[E _]|[(r & E & Hr & _)|[(st1 & q & E & _)|(st1 & v & E & Hv & _ & _ & D)]]]];
    rewrite E in H; simplify_eq/=.
  unfold dispensed. simpl. rewrite (deduct_visits _ _ _ _ D).
  unfold Visit.update. rewrite lookup_alter_eq, Hv. by eexists.
Qed.

Lemma serve_cons req reqs st :
  serve (req :: reqs) st
  = ((giveMedicines req st).1 :: (serve reqs (giveMedicines req st).2).1,
     (serve reqs (giveMedicines req st).2).2).
Proof.
  simpl. destruct (giveMedicines req st) as [r st1]. simpl.
  by destruct (serve reqs st1).
Qed.

Lemma serve_app reqs1 reqs2 st :
  serve (reqs1 ++ reqs2) st
  = ((serve reqs1 st).1 ++ (serve reqs2 (serve reqs1 st).2).1,
     (serve reqs2 (serve reqs1 st).2).2).
Proof.
  revert st. induction reqs1 as [|req reqs1 IH]; intros st.
  { simpl. by destruct (serve reqs2 st). }
  rewrite <- app_comm_cons, !serve_cons, IH. done.
Qed.

Lemma serve_keeps_dispensed reqs vid st :
  dispensed vid st → dispensed vid (serve reqs st).2.
Proof.
  revert st. induction reqs as [|req reqs IH]; intros st Hd; [done|].
  rewrite serve_cons. simpl. apply IH. by apply giveMedicines_keeps_dispensed.
Qed.

Lemma serve_after_dispensed reqs vid st :
  (∀ req, req ∈ reqs → ∃ items, addressed req vid items) →
  dispensed vid st →
  serve reqs st = (replicate (length reqs) AlreadyDispensed, st).
Proof.
  induction reqs as [|req reqs IH]; intros Hall Hd; [done|].
  destruct (Hall req) as [items Ha]; [by left|].
  destruct Hd as (v & Hv & Hg).
  rewrite serve_cons.
  rewrite (giveMedicines_addressed _ _ _ _ Ha), Hv, Hg. simpl.
  rewrite IH; [done| |by exists v].
  intros req' Hin. apply Hall. by right.
Qed.

Lemma serve_success_dispensed reqs vid st :
  (∀ req, req ∈ reqs → ∃ items, addressed req vid items) →
  Success ∈ (serve reqs st).1 →
  dispensed vid (serve reqs st).2.
Proof.
  revert st. induction reqs as [|req reqs IH]; intros st Hall.
  { by intros ?%not_elem_of_nil. }
  rewrite serve_cons. simpl. intros [Hs|Hin]%elem_of_cons.
  - apply serve_keeps_dispensed.
    destruct (Hall req) as [items Ha]; [by left|].
    apply (success_marks_the_visit req vid items st); [done|].
    symmetry in Hs. by destruct (giveMedicines req st) as [r s]; simplify_eq/=.
  - apply IH; [|done]. intros req' Hin'. apply Hall. by right.
Qed.

(** Attempts handled one after another: none before a successful one
    succeeded, and every one after it is answered AlreadyDispensed and
    leaves the store as it is. *)
Lemma handled_in_turn vid reqs1 req reqs2 st rs1 st1 st2 :
  (∀ r, r ∈ reqs1 ++ req :: reqs2 → ∃ items, addressed r vid items) →
  serve reqs1 st = (rs1, st1) →
  giveMedicines req st1 = (Success, st2) →
  serve (reqs1 ++ req :: reqs2) st
  = (rs1 ++ Success :: replicate (length reqs2) AlreadyDispensed, st2)
  ∧ Success ∉ rs1.
Proof.
  intros Hall H1 H2.
  assert (∀ r, r ∈ reqs1 → ∃ items, addressed r vid items) as Hall1.
  { intros r Hr. apply Hall, elem_of_app. by left. }
  assert (∃ items, addressed req vid items) as [items Ha].
  { apply Hall, elem_of_app. right. by left. }
  assert (∀ r, r ∈ reqs2 → ∃ items, addressed r vid items) as Hall2.
  { intros r Hr. apply Hall, elem_of_app. right. by right. }
  split.
  - rewrite serve_app, H1. cbn [fst snd]. rewrite serve_cons, H2. cbn [fst snd].
    rewrite (serve_after_dispensed reqs2 vid st2 Hall2); [done|].
    by eapply success_marks_the_visit.
  - intros Hin.
    pose proof (serve_success_dispensed reqs1 vid st Hall1) as Hd.
    rewrite H1 in Hd. cbn [fst snd] in Hd. destruct (Hd Hin) as (v & Hv & Hg).
    rewrite (giveMedicines_addressed _ _ _ _ Ha), Hv, Hg in H2. done.
Qed.

(** *** Attempts in flight together *)

Lemma succeeded_1 t : succeeded t = 1%nat → t = Finished Success.
Proof. destruct t as [| | | | | |[]]; done. Qed.

Lemma succeeded_le_1 t : (succeeded t ≤ 1)%nat.
Proof. destruct t as [| | | | | |[]]; simpl; lia. Qed.

Lemma sum_list_insert {A} (f : A → nat) l i x y :
  l !! i = Some x →
  (sum_list (f <$> <[i := y]> l) + f x = sum_list (f <$> l) + f y)%nat.
Proof.
  revert i. induction l as [|z l IH]; intros [|i] Hi; simplify_eq/=; [lia|].
  specialize (IH i Hi). lia.
Qed.

(** A visit that is dispensed stays dispensed, whoever is resumed. *)
Lemma step_keeps_dispensed vid t st :
  dispensed vid st → dispensed vid (step t st).2.
Proof.
  intros (v & Hv & Hg).
  destruct t as [req|v' items|v' items rest|v' items rest
                 |v' items rest i m|v' items|r]; simpl; try (by exists v).
  - destruct (visitId req), (hospitalId req), (medicines req); try (by exists v).
    destruct (_ || _); by exists v.
  - destruct (Visit.findById _ _) as [w|]; [|by exists v].
    destruct (Visit.medicineGiven w); by exists v.
  - destruct rest as [|item rest]; [by exists v|].
    destruct (Medicine.findOne _ _) as [[i m]|]; [|by exists v].
    destruct (_ <? _); by exists v.
  - destruct rest as [|item rest]; [by exists v|].
    destruct (Medicine.findOne _ _) as [[i m]|]; by exists v.
  - destruct (save_error m); by exists v.
  - unfold Visit.markDispensed.
    destruct (Visits st !! v') as [w|] eqn:Hw; [|by exists v].
    destruct (Visit.medicineGiven w) eqn:Hgw; [by exists v|].
    unfold dispensed, Visit.update. simpl. rewrite lookup_alter.
    case_decide; [|by exists v]. subst v'. rewrite Hv. by eexists.
Qed.

Lemma step_targets vid t st : targets vid t → targets vid (step t st).1.
Proof.
  destruct t as [req|v' items|v' items rest|v' items rest
                 |v' items rest i m|v' items|r]; simpl; intros Ht; try done.
  - destruct (visitId req) as [w|], (hospitalId req), (medicines req); try done.
    destruct (_ || _); [done|]. simpl. congruence.
  - destruct (Visit.findById _ _) as [w|]; [|done].
    by destruct (Visit.medicineGiven w).
  - destruct rest as [|item rest]; [done|].
    destruct (Medicine.findOne _ _) as [[i m]|]; [|done].
    by destruct (_ <? _).
  - destruct rest as [|item rest]; [done|].
    by destruct (Medicine.findOne _ _) as [[i m]|].
  - by destruct (save_error m).
  - by destruct (Visit.markDispensed _ _ _).
Qed.

(** The step that turns an invocation into a success is the save of the
    visit going through: the visit was not dispensed, and is afterwards. *)
Lemma step_to_success vid t st :
  targets vid t →
  succeeded t = 0%nat →
  succeeded (step t st).1 = 1%nat →
  ¬ dispensed vid st ∧ dispensed vid (step t st).2.
Proof.
  destruct t as [req|v' items|v' items rest|v' items rest
                 |v' items rest i m|v' items|r]; simpl; intros Ht H0 H1.
  - destruct (visitId req), (hospitalId req), (medicines req); try done.
    by destruct (_ || _).
  - destruct (Visit.findById _ _) as [w|]; [|done].
    by destruct (Visit.medicineGiven w).
  - destruct rest as [|item rest]; [done|].
    destruct (Medicine.findOne _ _) as [[i m]|]; [|done].
    by destruct (_ <? _).
  - destruct rest as [|item rest]; [done|].
    by destruct (Medicine.findOne _ _) as [[i m]|].
  - by destruct (save_error m).
  - subst v'. revert H1. unfold Visit.markDispensed.
    destruct (Visits st !! vid) as [w|] eqn:Hw; [|done].
    destruct (Visit.medicineGiven w) eqn:Hgw; [done|]. intros _. split.
    + intros (v & Hv & Hg). congruence.
    + unfold dispensed, Visit.update. simpl.
      rewrite lookup_alter_eq, Hw. by eexists.
  - congruence.
Qed.

(** What every resumption keeps: all invocations work on the visit, at most
    one has succeeded, and if one has the visit is dispensed. *)
Lemma resume_one_winner vid i c :
  Forall (targets vid) (threads c) →
  (successes c ≤ 1)%nat →
  (successes c = 1%nat → dispensed vid (store c)) →
  Forall (targets vid) (threads (resume i c))
  ∧ (successes (resume i c) ≤ 1)%nat
  ∧ (successes (resume i c) = 1%nat → dispensed vid (store (resume i c))).
Proof.
  intros Hall Hle Hone. unfold resume.
  destruct (threads c !! i) as [t|] eqn:Hi; [|done].
  pose proof (Forall_lookup_1 _ _ _ _ Hall Hi) as Ht.
  pose proof (step_targets vid t (store c) Ht) as Ht'.
  pose proof (step_keeps_dispensed vid t (store c)) as Hkeep.
  pose proof (step_to_success vid t (store c) Ht) as Hwin.
  pose proof (succeeded_le_1 t) as Hb. pose proof (succeeded_le_1 (step t (store c)).1) as Hb'.
  destruct (step t (store c)) as [t' st'] eqn:S. simpl in *.
  pose proof (sum_list_insert succeeded (threads c) i t t' Hi) as Hsum.
  unfold successes in *. simpl.
  split; [by apply Forall_insert|].
  destruct (decide (succeeded t = 1%nat)) as [H1|H1].
  - apply succeeded_1 in H1 as ->. simpl in S. injection S as <- <-.
    simpl in Hsum. split; [lia|]. intros H. apply Hone. lia.
  - assert (succeeded t = 0%nat) as H0 by lia.
    destruct (decide (succeeded t' = 1%nat)) as [H1'|H1'].
    + destruct (Hwin H0 H1') as [Hnot Hnow].
      assert (sum_list (succeeded <$> threads c) = 0%nat) as Hzero.
      { destruct (decide (sum_list (succeeded <$> threads c) = 1%nat)) as [E|E];
          [by destruct Hnot; apply Hone|lia]. }
      split; [lia|done].
    + split; [lia|]. intros H. apply Hkeep, Hone. lia.
Qed.

Lemma schedule_one_winner vid sched c :
  Forall (targets vid) (threads c) →
  (successes c ≤ 1)%nat →
  (successes c = 1%nat → dispensed vid (store c)) →
  (successes (schedule sched c) ≤ 1)%nat.
Proof.
  revert c. induction sched as [|i sched IH]; intros c Hall Hle Hone; [done|].
  destruct (resume_one_winner vid i c Hall Hle Hone) as (H1 & H2 & H3).
  by apply (IH (resume i c)).
Qed.

(** C8, amended: across any number of attempts for the same visit, however
    their steps interleave, at most one succeeds.  When the attempts (each
    with both ids and a medicines array) are handled one after another, no
    attempt before the successful one succeeded and every attempt after it
    is answered AlreadyDispensed and leaves the store as the successful
    attempt left it, so that its deduction is made once. *)
Theorem at_most_one_attempt_succeeds vid reqs st :
  (∀ req, req ∈ reqs → visitId req = Some vid) →
  (∀ sched, (successes (schedule sched (launch reqs st)) ≤ 1)%nat)
  ∧ (∀ reqs1 req reqs2 rs1 st1 st2,
       reqs = reqs1 ++ req :: reqs2 →
       (∀ r, r ∈ reqs → ∃ items, addressed r vid items) →
       serve reqs1 st = (rs1, st1) →
       giveMedicines req st1 = (Success, st2) →
       serve reqs st
       = (rs1 ++ Success :: replicate (length reqs2) AlreadyDispensed, st2)
       ∧ Success ∉ rs1).
Proof.
  intros Hvid. split.
  - intros sched.
    assert (successes (launch reqs st) = 0%nat) as Hzero.
    { unfold successes, launch. simpl. clear Hvid.
      induction reqs as [|req reqs IH]; [done|]. simpl. exact IH. }
    apply (schedule_one_winner vid); [|lia|lia].
    unfold launch. simpl. apply Forall_fmap, Forall_forall. intros req Hreq.
    simpl. by apply Hvid.
  - intros reqs1 req reqs2 rs1 st1 st2 -> Hall H1 H2.
    by apply (handled_in_turn vid reqs1 req reqs2 st rs1 st1 st2).
Qed.

Lemma at_most_one_attempt_succeeds_witness :
  let c := launch [sample_req [order "Paracetamol" 500];
                   sample_req [order "Paracetamol" 10];
                   sample_req [order "Paracetamol" 10]; sample_req []]
             (sample_store [("Paracetamol", 100)]) in
  (∀ sched, (successes (schedule sched c) ≤ 1)%nat)
  ∧ serve [sample_req [order "Paracetamol" 500];
           sample_req [order "Paracetamol" 10];
           sample_req [order "Paracetamol" 10]; sample_req []]
      (sample_store [("Paracetamol", 100)])
    = ([InsufficientStock "Paracetamol" 100 500]
       ++ Success :: replicate 2 AlreadyDispensed,
       served_store [("Paracetamol", 90)] [order "Paracetamol" 10]).
Proof.
  cbv zeta.
  destruct (at_most_one_attempt_succeeds "v1"
              [sample_req [order "Paracetamol" 500];
               sample_req [order "Paracetamol" 10];
               sample_req [order "Paracetamol" 10]; sample_req []]
              (sample_store [("Paracetamol", 100)])) as [Hany Hturn].
  - intros r Hr. repeat (apply elem_of_cons in Hr as [->|Hr]);
      [reflexivity..|]. by apply not_elem_of_nil in Hr.
  - split; [exact Hany|].
    apply (Hturn [sample_req [order "Paracetamol" 500]]
             (sample_req [order "Paracetamol" 10])
             [sample_req [order "Paracetamol" 10]; sample_req []]
             [InsufficientStock "Paracetamol" 100 500]
             (sample_store [("Paracetamol", 100)])
             (served_store [("Paracetamol", 90)] [order "Paracetamol" 10])).
    + reflexivity.
    + intros r Hr. repeat (apply elem_of_cons in Hr as [->|Hr]);
        [eexists; apply addressed_sample..|]. by apply not_elem_of_nil in Hr.
    + vm_compute. reflexivity.
    + vm_compute. reflexivity.
Defined.

(** * The catalogue handlers *)

(** ** Creating a medicine *)

Lemma validate_Some b m :
  Medicine_validate b = Some m ↔
  Body.name b = Some (Medicine.name m)
  ∧ Body.quantity b = Some (Medicine.quantity m)
  ∧ Body.lowStockThreshold b = Some (Medicine.lowStockThreshold m)
  ∧ Medicine.name m ≠ EmptyString
  ∧ 0 <= Medicine.quantity m
  ∧ 0 <= Medicine.lowStockThreshold m.
Proof.
  unfold Medicine_validate, Medicine.quantity_valid.
  destruct b as [[n|] [q|] [t|]]; simpl; try (split; [done|intros (?&?&?&_); done]).
  destruct m as [n' q' t']; simpl. split.
  - destruct (bool_decide (n ≠ EmptyString)) eqn:Hn; [|done].
    destruct (0 <=? q) eqn:Hq; [|done]. destruct (0 <=? t) eqn:Ht; [|done].
    simpl. intros [= <- <- <-].
    apply bool_decide_eq_true in Hn. apply Z.leb_le in Hq, Ht. done.
  - intros ([= ->] & [= ->] & [= ->] & Hn & Hq & Ht).
    rewrite bool_decide_eq_true_2 by done.
    by rewrite (proj2 (Z.leb_le _ _) Hq), (proj2 (Z.leb_le _ _) Ht).
Qed.

Lemma insert_fresh m coll :
  Medicine.name m ∉ Medicine.name <$> coll →
  Medicine_insert m coll = inr (coll ++ [m]).
Proof. intros H. unfold Medicine_insert. by rewrite bool_decide_eq_false_2. Qed.

Lemma insert_taken m coll :
  Medicine.name m ∈ Medicine.name <$> coll →
  Medicine_insert m coll = inl (DuplicateKey (Medicine.name m)).
Proof. intros H. unfold Medicine_insert. by rewrite bool_decide_eq_true_2. Qed.

Lemma insert_inr m coll coll' :
  Medicine_insert m coll = inr coll' →
  coll' = coll ++ [m] ∧ Medicine.name m ∉ Medicine.name <$> coll.
Proof.
  unfold Medicine_insert. case_bool_decide; [done|]. by intros [= <-].
Qed.

Lemma addMedicine_201 b coll m coll' :
  addMedicine b coll = (Sent 201 m, coll') →
  Medicine_validate b = Some m
  ∧ (Medicine.name m ∉ Medicine.name <$> coll)
  ∧ coll' = coll ++ [m].
Proof.
  unfold addMedicine. destruct (Medicine_validate b) as [m0|]; [|done].
  destruct (Medicine_insert m0 coll) as [f|c] eqn:I; [done|].
  intros [= -> ->]. by apply insert_inr in I as [-> ?].
Qed.

(** A lookup by name in a collection with one more document at its end. *)
Lemma findOne_snoc n coll m :
  Medicine.findOne n (coll ++ [m])
  = match Medicine.findOne n coll with
    | Some r => Some r
    | None => if decide (Medicine.name m = n) then Some (length coll, m) else None
    end.
Proof.
  unfold Medicine.findOne.
  destruct (list_find _ coll) as [[i x]|] eqn:F.
  - by apply list_find_app_l.
  - rewrite list_find_app_r by done. simpl. by case_decide.
Qed.

(** X1: once [addMedicine] has answered 201, the new document is the last of
    the collection, it is what a lookup by its name and a lookup by its id
    return, and the lookups of every other name and id answer as before. *)
Theorem added_medicine_is_found b coll m coll' :
  addMedicine b coll = (Sent 201 m, coll') →
  coll' = coll ++ [m]
  ∧ getMedicineByExactName (Body.name b) coll' = Sent 200 m
  ∧ getMedicineById (length coll) coll' = Sent 200 m
  ∧ (∀ n, n ≠ Medicine.name m →
       getMedicineByExactName (Some n) coll' = getMedicineByExactName (Some n) coll)
  ∧ (∀ id, (id < length coll)%nat → getMedicineById id coll' = getMedicineById id coll).
Proof.
  intros (Hv & Hfresh & ->)%addMedicine_201.
  apply validate_Some in Hv as (Hn & _ & _ & Hne & _).
  split_and!; [done| | | |].
  - rewrite Hn. unfold getMedicineByExactName.
    rewrite bool_decide_eq_false_2 by done.
    rewrite findOne_snoc, (proj2 (findOne_None _ _) Hfresh).
    by rewrite decide_True.
  - unfold getMedicineById. by rewrite list_lookup_middle.
  - intros n Hn'. unfold getMedicineByExactName. rewrite findOne_snoc.
    destruct (Medicine.findOne n coll) as [[i x]|]; [done|].
    by rewrite decide_False.
  - intros id Hid. unfold getMedicineById. by rewrite lookup_app_l.
Qed.

Lemma added_medicine_is_found_witness :
  let coll := [Medicine.mk "Amla" 10 5] in
  let m := Medicine.mk "Brahmi" 7 2 in
  getMedicineByExactName (Some "Brahmi") (coll ++ [m]) = Sent 200 m
  ∧ getMedicineById 1 (coll ++ [m]) = Sent 200 m.
Proof.
  destruct (added_medicine_is_found (entry "Brahmi" 7 2) [Medicine.mk "Amla" 10 5]
              (Medicine.mk "Brahmi" 7 2)
              ([Medicine.mk "Amla" 10 5] ++ [Medicine.mk "Brahmi" 7 2]) eq_refl)
    as (_ & H1 & H2 & _).
  split; [exact H1 | exact H2].
Defined.

(** X2: a body that [addMedicine] has accepted is refused when sent again:
    the answer is 400 with the duplicate-key error and the collection stays
    as the first call left it. *)
Theorem adding_twice_is_refused b coll m coll' :
  addMedicine b coll = (Sent 201 m, coll') →
  addMedicine b coll'
  = (Refused 400 (Thrown (DuplicateKey (Medicine.name m))), coll').
Proof.
  intros (Hv & Hfresh & ->)%addMedicine_201.
  unfold addMedicine. rewrite Hv, insert_taken; [done|].
  rewrite fmap_app. apply elem_of_app. right. by left.
Qed.

Lemma adding_twice_is_refused_witness :
  addMedicine (entry "Brahmi" 7 2) [Medicine.mk "Amla" 10 5; Medicine.mk "Brahmi" 7 2]
  = (Refused 400 (Thrown (DuplicateKey "Brahmi")),
     [Medicine.mk "Amla" 10 5; Medicine.mk "Brahmi" 7 2]).
Proof.
  apply (adding_twice_is_refused (entry "Brahmi" 7 2) [Medicine.mk "Amla" 10 5]
           (Medicine.mk "Brahmi" 7 2)).
  reflexivity.
Defined.

Lemma catalogue_ok_snoc coll m :
  catalogue_ok coll →
  Medicine.name m ∉ Medicine.name <$> coll →
  Medicine.name m ≠ EmptyString →
  0 <= Medicine.quantity m → 0 <= Medicine.lowStockThreshold m →
  catalogue_ok (coll ++ [m]).
Proof.
  intros [Hnd Hall] Hfresh Hn Hq Ht. split.
  - rewrite fmap_app. apply NoDup_app. split_and!; [done| |apply NoDup_singleton].
    intros x Hx [->|[]%not_elem_of_nil]%elem_of_cons. done.
  - apply Forall_app. split; [done|]. by repeat constructor.
Qed.

(** X3: whatever the body and the answer, [addMedicine] keeps the collection
    within the schema: names stay distinct and non-empty, quantities and
    thresholds stay at or above 0; and a refusal changes nothing. *)
Theorem addMedicine_keeps_catalogue b coll :
  catalogue_ok coll →
  catalogue_ok (addMedicine b coll).2
  ∧ (∀ code why, (addMedicine b coll).1 = Refused code why →
       (addMedicine b coll).2 = coll).
Proof.
  intros Hok. unfold addMedicine.
  destruct (Medicine_validate b) as [m|] eqn:Hv; [|done].
  destruct (Medicine_insert m coll) as [f|c] eqn:I; [done|]. simpl.
  apply insert_inr in I as [-> Hfresh].
  apply validate_Some in Hv as (_ & _ & _ & Hn & Hq & Ht).
  split; [by apply catalogue_ok_snoc|done].
Qed.

Lemma sample_catalogue_ok :
  catalogue_ok [Medicine.mk "Amla" 10 5; Medicine.mk "Brahmi" 7 2].
Proof.
  split.
  - apply NoDup_ListNoDup. simpl. repeat constructor; simpl; intuition discriminate.
  - repeat constructor; simpl; (discriminate || lia).
Defined.

Lemma addMedicine_keeps_catalogue_witness :
  catalogue_ok
    (addMedicine (entry "Triphala" 0 0)
       [Medicine.mk "Amla" 10 5; Medicine.mk "Brahmi" 7 2]).2.
Proof.
  apply (addMedicine_keeps_catalogue (entry "Triphala" 0 0)
           [Medicine.mk "Amla" 10 5; Medicine.mk "Brahmi" 7 2]).
  apply sample_catalogue_ok.
Defined.

(** ** Creating medicines in bulk *)

Lemma validate_fields_present b m :
  Medicine_validate b = Some m → field_missing b = false.
Proof.
  intros (Hn & Hq & Ht & Hne & _)%validate_Some.
  unfold field_missing. rewrite Hn, Hq, Ht. by apply bool_decide_eq_false_2.
Qed.

Lemma validated_fields_present items ms :
  mapM Medicine_validate items = Some ms → existsb field_missing items = false.
Proof.
  intros H%mapM_Some_1. induction H as [|b m items ms Hb _ IH]; [done|].
  simpl. by rewrite (validate_fields_present _ _ Hb), IH.
Qed.

Lemma validated_docs_ok items ms :
  mapM Medicine_validate items = Some ms →
  Forall (λ m, Medicine.name m ≠ EmptyString
               ∧ 0 <= Medicine.quantity m
               ∧ 0 <= Medicine.lowStockThreshold m) ms.
Proof.
  intros H%mapM_Some_1. induction H as [|b m items ms Hb _ IH]; constructor; [|done].
  by apply validate_Some in Hb as (_ & _ & _ & ? & ? & ?).
Qed.

(** The ordered insert goes through exactly when the names are new and
    distinct. *)
Lemma insert_ordered_None ms coll coll' :
  insert_ordered ms coll = (None, coll') ↔
  NoDup (Medicine.name <$> ms)
  ∧ (∀ n, n ∈ Medicine.name <$> ms → n ∉ Medicine.name <$> coll)
  ∧ coll' = coll ++ ms.
Proof.
  revert coll. induction ms as [|m ms IH]; intros coll; simpl.
  { rewrite app_nil_r. split.
    - intros [= <-]. split_and!; [constructor| |done]. by intros n ?%not_elem_of_nil.
    - by intros (_ & _ & ->). }
  unfold Medicine_insert. case_bool_decide as Hin.
  - split; [done|]. intros (_ & Hfresh & _). exfalso.
    apply (Hfresh (Medicine.name m)); [by left|done].
  - rewrite IH, NoDup_cons, fmap_app, <- app_assoc. simpl. split.
    + intros (Hnd & Hfresh & ->). split_and!; [|done| |done].
      * intros Hm. apply (Hfresh _ Hm). apply elem_of_app. right. by left.
      * intros n [->|Hn]%elem_of_cons; [done|].
        intros Hc. apply (Hfresh _ Hn). apply elem_of_app. by left.
    + intros ([Hm Hnd] & Hfresh & ->). split_and!; [done| |done].
      intros n Hn [Hc|[->|[]%not_elem_of_nil]%elem_of_cons]%elem_of_app; [|done].
      apply (Hfresh n); [by right|done].
Qed.

(** It stops at the first document whose name is taken, and keeps what it
    has inserted up to there. *)
Lemma insert_ordered_clash pre m post coll :
  NoDup (Medicine.name <$> pre) →
  (∀ n, n ∈ Medicine.name <$> pre → n ∉ Medicine.name <$> coll) →
  Medicine.name m ∈ Medicine.name <$> (coll ++ pre) →
  insert_ordered (pre ++ m :: post) coll
  = (Some (DuplicateKey (Medicine.name m)), coll ++ pre).
Proof.
  revert coll. induction pre as [|p pre IH]; intros coll Hnd Hfresh Hin; simpl.
  { rewrite app_nil_r in *. by rewrite insert_taken. }
  apply NoDup_cons in Hnd as [Hp Hnd].
  rewrite insert_fresh by (apply Hfresh; by left).
  rewrite IH; [by rewrite <- app_assoc|done| |].
  - intros n Hn. rewrite fmap_app.
    intros [Hc|[->|[]%not_elem_of_nil]%elem_of_cons]%elem_of_app; [|done].
    apply (Hfresh n); [by right|done].
  - by rewrite <- app_assoc.
Qed.

(** X4: [bulkCreateMedicines] answers 201 exactly when the array is not
    empty, every element passes the schema (a name, a quantity and a
    threshold, both at least 0), and the names are distinct from each other
    and from those in the collection; the documents are then appended in the
    order of the array. *)
Theorem bulk_create_succeeds_iff items coll ms coll' :
  bulkCreateMedicines (Some items) coll = (Sent 201 ms, coll') ↔
  items ≠ []
  ∧ mapM Medicine_validate items = Some ms
  ∧ NoDup (Medicine.name <$> ms)
  ∧ (∀ n, n ∈ Medicine.name <$> ms → n ∉ Medicine.name <$> coll)
  ∧ coll' = coll ++ ms.
Proof.
  unfold bulkCreateMedicines, Medicine_insertMany.
  destruct items as [|b items]; [split; [done|by intros [? _]]|].
  set (all := b :: items). split.
  - destruct (existsb field_missing all); [done|].
    destruct (mapM Medicine_validate all) as [ms0|] eqn:Hv; [|done].
    destruct (insert_ordered ms0 coll) as [[f|] c] eqn:I; [done|].
    intros [= -> ->]. by apply insert_ordered_None in I as (? & ? & ?).
  - intros (_ & Hv & Hnd & Hfresh & ->).
    rewrite (validated_fields_present _ _ Hv), Hv.
    by rewrite (proj2 (insert_ordered_None ms coll (coll ++ ms))).
Qed.

Lemma bulk_create_succeeds_iff_witness :
  bulkCreateMedicines (Some [entry "Brahmi" 7 2; entry "Triphala" 0 0])
    [Medicine.mk "Amla" 10 5]
  = (Sent 201 [Medicine.mk "Brahmi" 7 2; Medicine.mk "Triphala" 0 0],
     [Medicine.mk "Amla" 10 5] ++ [Medicine.mk "Brahmi" 7 2; Medicine.mk "Triphala" 0 0]).
Proof.
  apply (proj2 (bulk_create_succeeds_iff _ _ _ _)).
  split_and!; [discriminate | reflexivity | | | reflexivity].
  - apply NoDup_ListNoDup. simpl. repeat constructor; simpl; intuition discriminate.
  - intros n Hn Hc. apply list_elem_of_In in Hn, Hc. simpl in Hn, Hc.
    intuition (subst; discriminate).
Defined.

(** X5: the bulk insert is not all-or-nothing.  When the elements pass the
    schema and one of them carries a name that is taken (by the collection
    or by an earlier element), the answer is 400 with the duplicate-key
    error, and the elements before it have been inserted and stay. *)
Theorem bulk_create_keeps_the_inserted_prefix items coll pre m post :
  mapM Medicine_validate items = Some (pre ++ m :: post) →
  NoDup (Medicine.name <$> pre) →
  (∀ n, n ∈ Medicine.name <$> pre → n ∉ Medicine.name <$> coll) →
  Medicine.name m ∈ Medicine.name <$> (coll ++ pre) →
  bulkCreateMedicines (Some items) coll
  = (Refused 400 (Thrown (DuplicateKey (Medicine.name m))), coll ++ pre).
Proof.
  intros Hv Hnd Hfresh Hin.
  unfold bulkCreateMedicines, Medicine_insertMany.
  destruct items as [|b items]; [by destruct pre|].
  rewrite (validated_fields_present _ _ Hv), Hv.
  by rewrite insert_ordered_clash.
Qed.

Lemma bulk_create_keeps_the_inserted_prefix_witness :
  bulkCreateMedicines
    (Some [entry "Brahmi" 7 2; entry "Amla" 3 1; entry "Triphala" 0 0])
    [Medicine.mk "Amla" 10 5]
  = (Refused 400 (Thrown (DuplicateKey "Amla")),
     [Medicine.mk "Amla" 10 5] ++ [Medicine.mk "Brahmi" 7 2]).
Proof.
  apply (bulk_create_keeps_the_inserted_prefix _ _ [Medicine.mk "Brahmi" 7 2]
           (Medicine.mk "Amla" 3 1) [Medicine.mk "Triphala" 0 0]).
  - reflexivity.
  - apply NoDup_singleton.
  - intros n Hn Hc. apply list_elem_of_In in Hn, Hc. simpl in Hn, Hc.
    intuition (subst; discriminate).
  - apply list_elem_of_In. simpl. by left.
Defined.

Lemma add_each_cons b items coll :
  add_each (b :: items) coll
  = ((addMedicine b coll).1 :: (add_each items (addMedicine b coll).2).1,
     (add_each items (addMedicine b coll).2).2).
Proof.
  simpl. destruct (addMedicine b coll) as [r c1]. simpl.
  by destruct (add_each items c1).
Qed.

Lemma add_each_all_created items ms coll coll' :
  add_each items coll = (Sent 201 <$> ms, coll') ↔
  mapM Medicine_validate items = Some ms ∧ insert_ordered ms coll = (None, coll').
Proof.
  revert ms coll. induction items as [|b items IH]; intros ms coll.
  { simpl. split.
    - destruct ms; [|done]. by intros [= <-].
    - by intros [[= <-] [= <-]]. }
  rewrite add_each_cons. unfold addMedicine. simpl.
  destruct (Medicine_validate b) as [m|] eqn:Hv; simpl.
  2:{ split; [by destruct ms|by intros [? _]]. }
  destruct (Medicine_insert m coll) as [f|c1] eqn:I; simpl.
  - split; [by destruct ms|].
    destruct (mapM Medicine_validate items) as [ms'|]; simpl; [|by intros [? _]].
    intros [[= <-] H]. simpl in H. by rewrite I in H.
  - destruct ms as [|m0 ms].
    { split; [done|].
      by destruct (mapM Medicine_validate items); simpl; intros [? _]. }
    rewrite fmap_cons. split.
    + intros H.
      assert (m = m0) as <- by congruence.
      assert (add_each items c1 = (Sent 201 <$> ms, coll')) as H'.
      { destruct (add_each items c1). simpl in H. congruence. }
      apply IH in H' as [-> H']. simpl. by rewrite I.
    + destruct (mapM Medicine_validate items) as [ms'|] eqn:Hm; simpl;
        [|by intros [? _]].
      intros [[= -> ->] H]. simpl in H. rewrite I in H.
      by rewrite (proj2 (IH ms c1) (conj eq_refl H)).
Qed.

(** X6: for a non-empty array, the bulk insert answers 201 exactly when
    sending the elements to [addMedicine] one after another gives 201 each
    time, and both leave the same collection. *)
Theorem bulk_create_agrees_with_adding_each items coll ms coll' :
  items ≠ [] →
  bulkCreateMedicines (Some items) coll = (Sent 201 ms, coll') ↔
  add_each items coll = (Sent 201 <$> ms, coll').
Proof.
  intros Hne. rewrite add_each_all_created.
  unfold bulkCreateMedicines, Medicine_insertMany.
  destruct items as [|b items]; [done|]. set (all := b :: items). split.
  - destruct (existsb field_missing all); [done|].
    destruct (mapM Medicine_validate all) as [ms0|]; [|done].
    destruct (insert_ordered ms0 coll) as [[f|] c] eqn:I; [done|].
    by intros [= -> ->].
  - intros [Hv I]. by rewrite (validated_fields_present _ _ Hv), Hv, I.
Qed.

Lemma bulk_create_agrees_with_adding_each_witness :
  add_each [entry "Brahmi" 7 2; entry "Triphala" 0 0] [Medicine.mk "Amla" 10 5]
  = (Sent 201 <$> [Medicine.mk "Brahmi" 7 2; Medicine.mk "Triphala" 0 0],
     [Medicine.mk "Amla" 10 5; Medicine.mk "Brahmi" 7 2; Medicine.mk "Triphala" 0 0]).
Proof.
  apply (proj1 (bulk_create_agrees_with_adding_each
                  [entry "Brahmi" 7 2; entry "Triphala" 0 0] _ _ _
                  ltac:(discriminate))).
  reflexivity.
Defined.

Lemma insert_ordered_keeps ms coll :
  catalogue_ok coll →
  Forall (λ m, Medicine.name m ≠ EmptyString
               ∧ 0 <= Medicine.quantity m
               ∧ 0 <= Medicine.lowStockThreshold m) ms →
  catalogue_ok (insert_ordered ms coll).2 ∧ coll `prefix_of` (insert_ordered ms coll).2.
Proof.
  intros Hok Hms. revert coll Hok.
  induction Hms as [|m ms (Hn & Hq & Ht) _ IH]; intros coll Hok; [done|].
  simpl. destruct (Medicine_insert m coll) as [f|c1] eqn:I; [done|].
  apply insert_inr in I as [-> Hfresh].
  destruct (IH (coll ++ [m])) as [H1 H2]; [by apply catalogue_ok_snoc|].
  split; [done|]. etrans; [|exact H2]. by apply prefix_app_r.
Qed.

(** X7: whatever is sent, [bulkCreateMedicines] only appends: the documents
    already there keep their place and content, and the collection stays
    within the schema (distinct non-empty names, quantities and thresholds
    at least 0).  When the array is missing or empty, or an element lacks a
    field or fails the schema, nothing is inserted at all. *)
Theorem bulk_create_only_appends medicines coll :
  catalogue_ok coll →
  catalogue_ok (bulkCreateMedicines medicines coll).2
  ∧ coll `prefix_of` (bulkCreateMedicines medicines coll).2
  ∧ (medicines = None ∨ medicines = Some []
     ∨ (∃ items, medicines = Some items
                 ∧ (existsb field_missing items = true
                    ∨ mapM Medicine_validate items = None)) →
     ∃ why, bulkCreateMedicines medicines coll = (Refused 400 why, coll)).
Proof.
  intros Hok. unfold bulkCreateMedicines, Medicine_insertMany.
  assert (∀ (why : Refusal) (P : Prop),
            catalogue_ok (Refused (A:=list Medicine.doc) 400 why, coll).2
            ∧ coll `prefix_of` (Refused (A:=list Medicine.doc) 400 why, coll).2
            ∧ (P → ∃ why', (Refused (A:=list Medicine.doc) 400 why, coll)
                           = (Refused 400 why', coll))) as Hsame.
  { intros why P. split_and!; [done..|]. intros _. by exists why. }
  destruct medicines as [[|b items]|]; [apply Hsame| |apply Hsame].
  set (all := b :: items).
  destruct (existsb field_missing all) eqn:Hf; [apply Hsame|].
  destruct (mapM Medicine_validate all) as [ms|] eqn:Hv; [|apply Hsame].
  destruct (insert_ordered_keeps ms coll Hok (validated_docs_ok _ _ Hv)) as [H1 H2].
  destruct (insert_ordered ms coll) as [[f|] c]; simpl in H1, H2; simpl;
    (split_and!; [done..|]);
    intros [?|[?|(items' & Hi & [?|?])]]; try done;
    injection Hi as <-; unfold all in *; congruence.
Qed.

Lemma bulk_create_only_appends_witness :
  catalogue_ok
    (bulkCreateMedicines (Some [entry "Triphala" 4 1; entry "Amla" 3 1])
       [Medicine.mk "Amla" 10 5; Medicine.mk "Brahmi" 7 2]).2.
Proof.
  apply (bulk_create_only_appends
           (Some [entry "Triphala" 4 1; entry "Amla" 3 1])
           [Medicine.mk "Amla" 10 5; Medicine.mk "Brahmi" 7 2]
           sample_catalogue_ok).
Defined.

(** ** Updating a medicine *)

Lemma updateMedicine_200 id b coll m' coll' :
  updateMedicine id b coll = (Sent 200 m', coll') ↔
  threshold_rejected b = false
  ∧ ∃ m, coll !! id = Some m
         ∧ m' = apply_update b m
         ∧ ¬ (Medicine.name m' ≠ Medicine.name m
              ∧ Medicine.name m' ∈ Medicine.name <$> delete id coll)
         ∧ coll' = <[id := m']> coll.
Proof.
  unfold updateMedicine, Medicine_findByIdAndUpdate.
  destruct (threshold_rejected b); [split; [done|by intros [? _]]|].
  destruct (coll !! id) as [m|] eqn:Hm.
  - cbv zeta. case_bool_decide as Hd.
    + split; [done|]. intros (_ & m0 & [= <-] & -> & Hn & _). done.
    + split.
      * intros [= <- <-]. split; [done|]. by exists m.
      * intros (_ & m0 & [= <-] & -> & _ & ->). done.
  - split; [done|]. by intros (_ & m0 & ? & _).
Qed.

Lemma updateMedicine_refused id b coll code why :
  (updateMedicine id b coll).1 = Refused code why →
  (updateMedicine id b coll).2 = coll.
Proof.
  unfold updateMedicine, Medicine_findByIdAndUpdate.
  destruct (threshold_rejected b); [done|].
  destruct (coll !! id) as [m|]; [|done].
  cbv zeta. by case_bool_decide.
Qed.

(** X8: when [updateMedicine] answers 200, the document it returns is the
    one a lookup by that id now finds; the fields sent have the values sent,
    the fields not sent keep their values; the collection has as many
    documents as before and the other ids answer as before. *)
Theorem updated_medicine_is_returned id b coll m' coll' :
  updateMedicine id b coll = (Sent 200 m', coll') →
  getMedicineById id coll' = Sent 200 m'
  ∧ length coll' = length coll
  ∧ (∀ j, j ≠ id → getMedicineById j coll' = getMedicineById j coll)
  ∧ ∃ m, getMedicineById id coll = Sent 200 m
         ∧ Medicine.name m' = default (Medicine.name m) (Body.name b)
         ∧ Medicine.quantity m' = default (Medicine.quantity m) (Body.quantity b)
         ∧ Medicine.lowStockThreshold m'
           = default (Medicine.lowStockThreshold m) (Body.lowStockThreshold b).
Proof.
  intros (_ & m & Hm & -> & _ & ->)%updateMedicine_200.
  pose proof (lookup_lt_Some _ _ _ Hm) as Hlt.
  unfold getMedicineById. split_and!.
  - by rewrite list_lookup_insert_eq.
  - apply length_insert.
  - intros j Hj. by rewrite list_lookup_insert_ne.
  - exists m. by rewrite Hm.
Qed.

Lemma updated_medicine_is_returned_witness :
  getMedicineById 1
    [Medicine.mk "Amla" 10 5; Medicine.mk "Brahmi" 20 2]
  = Sent 200 (Medicine.mk "Brahmi" 20 2).
Proof.
  apply (updated_medicine_is_returned 1 (Body.mk None (Some 20) None)
           [Medicine.mk "Amla" 10 5; Medicine.mk "Brahmi" 7 2]
           (Medicine.mk "Brahmi" 20 2)
           [Medicine.mk "Amla" 10 5; Medicine.mk "Brahmi" 20 2]).
  reflexivity.
Defined.

(** X9: when a quantity and a threshold are both sent, [updateMedicine]
    refuses with 400 and changes nothing unless 0 <= threshold < quantity,
    so a document it has stored from such a body has its threshold below
    its quantity and not negative. *)
Theorem update_checks_threshold_against_quantity id b coll t q :
  Body.lowStockThreshold b = Some t →
  Body.quantity b = Some q →
  (¬ (0 <= t < q) → updateMedicine id b coll = (Refused 400 BadThreshold, coll))
  ∧ (∀ m' coll', updateMedicine id b coll = (Sent 200 m', coll') →
       0 <= Medicine.lowStockThreshold m' < Medicine.quantity m').
Proof.
  intros Ht Hq. split.
  - intros Hbad. unfold updateMedicine, threshold_rejected. rewrite Ht, Hq.
    destruct (t <? 0) eqn:E1; [done|]. destruct (q <=? t) eqn:E2; [done|].
    apply Z.ltb_ge in E1. apply Z.leb_gt in E2. lia.
  - intros m' coll' (Hrej & m & _ & -> & _)%updateMedicine_200.
    unfold threshold_rejected in Hrej. rewrite Ht, Hq in Hrej.
    apply orb_false_iff in Hrej as [E1%Z.ltb_ge E2%Z.leb_gt].
    unfold apply_update. rewrite Ht, Hq. simpl. lia.
Qed.

Lemma update_checks_threshold_against_quantity_witness :
  updateMedicine 0 (Body.mk None (Some 5) (Some 5)) [Medicine.mk "Amla" 10 5]
  = (Refused 400 BadThreshold, [Medicine.mk "Amla" 10 5]).
Proof.
  apply (proj1 (update_checks_threshold_against_quantity 0
                  (Body.mk None (Some 5) (Some 5)) [Medicine.mk "Amla" 10 5] 5 5
                  eq_refl eq_refl)).
  lia.
Defined.

(** X10: a quantity sent alone is stored as it is, whatever its sign: the
    update runs no validator, so that a stock below 0 can be written
    through [updateMedicine]. *)
Theorem update_stores_any_quantity id q coll m :
  coll !! id = Some m →
  updateMedicine id (Body.mk None (Some q) None) coll
  = (Sent 200 (Medicine.set_quantity q m), <[id := Medicine.set_quantity q m]> coll)
  ∧ (q < 0 →
     ¬ Forall (λ m, 0 <= Medicine.quantity m)
         (updateMedicine id (Body.mk None (Some q) None) coll).2).
Proof.
  intros Hm.
  assert (updateMedicine id (Body.mk None (Some q) None) coll
          = (Sent 200 (Medicine.set_quantity q m),
             <[id := Medicine.set_quantity q m]> coll)) as E.
  { apply updateMedicine_200. split; [done|]. exists m.
    split_and!; [done..| |done]. by intros [? _]. }
  split; [done|]. rewrite E. simpl. intros Hq Hall.
  pose proof (Forall_lookup_1 _ _ id (Medicine.set_quantity q m) Hall) as H.
  rewrite list_lookup_insert_eq in H by (by eapply lookup_lt_Some).
  specialize (H eq_refl). simpl in H. lia.
Qed.

Lemma update_stores_any_quantity_witness :
  updateMedicine 0 (Body.mk None (Some (-3)) None) [Medicine.mk "Amla" 10 5]
  = (Sent 200 (Medicine.mk "Amla" (-3) 5), [Medicine.mk "Amla" (-3) 5]).
Proof.
  apply (proj1 (update_stores_any_quantity 0 (-3) [Medicine.mk "Amla" 10 5]
                  (Medicine.mk "Amla" 10 5) eq_refl)).
Defined.

Lemma NoDup_names_insert id m m' coll :
  coll !! id = Some m →
  NoDup (Medicine.name <$> coll) →
  ¬ (Medicine.name m' ≠ Medicine.name m
     ∧ Medicine.name m' ∈ Medicine.name <$> delete id coll) →
  NoDup (Medicine.name <$> <[id := m']> coll).
Proof.
  intros Hm Hnd Hfree.
  pose proof (lookup_lt_Some _ _ _ Hm) as Hlt.
  destruct (decide (Medicine.name m' = Medicine.name m)) as [Heq|Hne].
  - rewrite list_fmap_insert, Heq, list_insert_id; [done|].
    by rewrite list_lookup_fmap, Hm.
  - assert (Medicine.name m' ∉ Medicine.name <$> delete id coll) as Hout
      by (intros ?; by apply Hfree).
    rewrite insert_take_drop by done.
    rewrite delete_take_drop in Hout.
    rewrite <- (take_drop_middle _ _ _ Hm) in Hnd.
    rewrite !fmap_app, !fmap_cons in *.
    apply NoDup_app in Hnd as (H1 & H2 & [_ H3]%NoDup_cons).
    apply not_elem_of_app in Hout as [Ho1 Ho2].
    apply NoDup_app. split_and!; [done| |by apply NoDup_cons].
    intros x Hx [->|Hx']%elem_of_cons; [done|].
    apply (H2 x Hx). by right.
Qed.

(** X11: [updateMedicine] keeps the names of the collection distinct,
    whatever it is sent (a change to a name that another medicine has is
    refused), and every answer other than 200 leaves the collection as it
    was. *)
Theorem update_keeps_names_distinct id b coll :
  NoDup (Medicine.name <$> coll) →
  NoDup (Medicine.name <$> (updateMedicine id b coll).2)
  ∧ (∀ code why, (updateMedicine id b coll).1 = Refused code why →
       (updateMedicine id b coll).2 = coll).
Proof.
  intros Hnd. split; [|apply updateMedicine_refused].
  destruct (updateMedicine id b coll) as [[code m'|code why] coll'] eqn:E.
  - simpl. destruct (decide (code = 200)) as [->|Hc].
    + apply updateMedicine_200 in E as (_ & m & Hm & -> & Hfree & ->).
      by eapply NoDup_names_insert.
    + exfalso. revert E. unfold updateMedicine, Medicine_findByIdAndUpdate.
      destruct (threshold_rejected b); [done|].
      destruct (coll !! id); [|done]. cbv zeta. case_bool_decide; [done|].
      intros [= ? _]. by subst.
  - pose proof (updateMedicine_refused id b coll code why) as H.
    rewrite E in H. simpl in *. by rewrite H.
Qed.

Lemma update_keeps_names_distinct_witness :
  NoDup (Medicine.name <$>
           (updateMedicine 1 (Body.mk (Some "Amla") None None)
              [Medicine.mk "Amla" 10 5; Medicine.mk "Brahmi" 7 2]).2)
  ∧ updateMedicine 1 (Body.mk (Some "Amla") None None)
      [Medicine.mk "Amla" 10 5; Medicine.mk "Brahmi" 7 2]
    = (Refused 400 (Thrown (DuplicateKey "Amla")),
       [Medicine.mk "Amla" 10 5; Medicine.mk "Brahmi" 7 2]).
Proof.
  split; [|reflexivity].
  apply (update_keeps_names_distinct 1 (Body.mk (Some "Amla") None None)
           [Medicine.mk "Amla" 10 5; Medicine.mk "Brahmi" 7 2]).
  apply sample_catalogue_ok.
Defined.

(** ** Listing medicines *)

Lemma string_compare_le_trans a b c :
  String.compare a b ≠ Gt → String.compare b c ≠ Gt → String.compare a c ≠ Gt.
Proof.
  revert b c. induction a as [|x a IH]; intros [|y b] [|z c]; simpl; try done.
  unfold Ascii.compare.
  destruct (N.compare_spec (Ascii.N_of_ascii x) (Ascii.N_of_ascii y)) as [Exy|Lxy|Gxy];
    [| |done].
  - rewrite Exy.
    destruct (Ascii.N_of_ascii y ?= Ascii.N_of_ascii z)%N; [apply IH|done..].
  - destruct (N.compare_spec (Ascii.N_of_ascii y) (Ascii.N_of_ascii z)) as [Eyz|Lyz|Gyz];
      [| |done]; intros _ _.
    + rewrite <- Eyz. by rewrite (proj2 (N.compare_lt_iff _ _) Lxy).
    + rewrite (proj2 (N.compare_lt_iff _ _)) by lia. done.
Qed.

Lemma string_leb_trans a b c :
  String.leb a b = true → String.leb b c = true → String.leb a c = true.
Proof.
  unfold String.leb. intros H1 H2.
  pose proof (string_compare_le_trans a b c) as H.
  destruct (String.compare a b), (String.compare b c), (String.compare a c);
    try done; exfalso; by apply H.
Qed.

Global Instance by_name_trans : Transitive by_name.
Proof. intros p1 p2 p3. unfold by_name. apply string_leb_trans. Qed.

Global Instance by_name_total : Total by_name.
Proof. intros p1 p2. unfold by_name. apply String.leb_total. Qed.

Lemma sort_by_name_sorted docs : StronglySorted by_name (sort_by_name docs).
Proof. apply StronglySorted_merge_sort; apply _. Qed.

Lemma sort_by_name_perm docs : sort_by_name docs ≡ₚ docs.
Proof. apply merge_sort_Permutation. Qed.

Lemma with_ids_lookup coll i p :
  with_ids coll !! i = Some p ↔ p.1 = i ∧ coll !! i = Some p.2.
Proof.
  unfold with_ids. rewrite list_lookup_imap. destruct p as [j m]. simpl.
  destruct (coll !! i) as [m0|]; simpl; [|by split; [|intros [_ ?]]].
  split; [by intros [= -> ->]|by intros [-> [= ->]]].
Qed.

Lemma with_ids_elem coll id m :
  (id, m) ∈ with_ids coll ↔ coll !! id = Some m.
Proof.
  rewrite list_elem_of_lookup. split.
  - intros [i [Hi Hm]%with_ids_lookup]. simpl in *. by subst.
  - intros Hm. exists id. by apply with_ids_lookup.
Qed.

(** X12: [getMedicineNames] answers with one entry per medicine, in the
    order of the names; each entry carries the id under which
    [getMedicineById] returns a medicine of that name. *)
Theorem medicine_names_are_sorted_and_complete coll :
  ∃ entries,
    getMedicineNames coll = Sent 200 entries
    ∧ entries ≡ₚ imap (λ i m, (i, Medicine.name m)) coll
    ∧ StronglySorted (λ e1 e2, String.leb e1.2 e2.2 = true) entries
    ∧ ∀ id n, (id, n) ∈ entries →
        ∃ m, getMedicineById id coll = Sent 200 m ∧ Medicine.name m = n.
Proof.
  eexists. split; [reflexivity|]. split_and!.
  - rewrite sort_by_name_perm. unfold with_ids.
    rewrite fmap_imap. done.
  - pose proof (sort_by_name_sorted (with_ids coll)) as H.
    induction H as [|p l Hl IH Hp]; [constructor|].
    rewrite fmap_cons. constructor; [done|].
    apply Forall_fmap. eapply Forall_impl; [exact Hp|]. done.
  - intros id n ([id' m] & [= -> ->] & Hin)%list_elem_of_fmap.
    rewrite sort_by_name_perm in Hin. apply with_ids_elem in Hin.
    exists m. unfold getMedicineById. by rewrite Hin.
Qed.

Example medicine_names_sample :
  getMedicineNames
    [Medicine.mk "Triphala" 4 1; Medicine.mk "Amla" 10 5; Medicine.mk "Brahmi" 7 2]
  = Sent 200 [(1%nat, "Amla"); (2%nat, "Brahmi"); (0%nat, "Triphala")].
Proof. vm_compute. reflexivity. Qed.



Section listing_facts.
Variable regex_i : string → string → bool.


End listing_facts.


(** ** The catalogue and the dispensing handler together *)



Lemma catalogue_ok_alt coll :
  catalogue_ok coll ↔
  NoDup (Medicine.name <$> coll)
  ∧ Forall (λ n, n ≠ EmptyString) (Medicine.name <$> coll)
  ∧ Forall (λ m, 0 <= Medicine.quantity m) coll
  ∧ Forall (λ t, 0 <= t) (Medicine.lowStockThreshold <$> coll).
Proof.
  unfold catalogue_ok. rewrite !Forall_fmap, !Forall_forall. unfold compose.
  split.
  - intros [Hnd H]. split_and!; [done|..]; intros m Hm; by apply H.
  - intros (Hnd & H1 & H2 & H3). split; [done|]. intros m Hm.
    split_and!; [by apply H1|by apply H2|by apply H3].
Qed.

Lemma giveMedicines_names_thresholds req st :
  Medicine.name <$> Medicines (giveMedicines req st).2 = Medicine.name <$> Medicines st
  ∧ Medicine.lowStockThreshold <$> Medicines (giveMedicines req st).2
    = Medicine.lowStockThreshold <$> Medicines st.
Proof.
  destruct (malformed_or_addressed req) as [Hm|(vid & items & Ha)].
  { by rewrite (giveMedicines_malformed _ _ Hm). }
  destruct (giveMedicines_cases req vid items st Ha)
    as [[-> _]|[[-> _]|[(r & -> & _)|[(st1 & q & -> & _ & D)|(st1 & v & -> & _ & _ & _ & D)]]]];
    simpl; try done;
    by rewrite (deduct_names _ _ _ _ D), (deduct_thresholds _ _ _ _ D).
Qed.

Lemma giveMedicines_keeps_catalogue req st :
  catalogue_ok (Medicines st) → catalogue_ok (Medicines (giveMedicines req st).2).
Proof.
  rewrite !catalogue_ok_alt. intros (H1 & H2 & H3 & H4).
  destruct (giveMedicines_names_thresholds req st) as [-> ->].
  split_and!; [done..| |done]. by apply giveMedicines_nonneg.
Qed.

Lemma perform_keeps_names_distinct op st :
  NoDup (Medicine.name <$> Medicines st) →
  NoDup (Medicine.name <$> Medicines (perform op st)).
Proof.
  intros Hnd. destruct op as [b|ms|id b|req]; simpl.
  - unfold addMedicine. destruct (Medicine_validate b) as [m|]; [|done].
    destruct (Medicine_insert m (Medicines st)) as [f|c] eqn:I; [done|].
    apply insert_inr in I as [-> Hfresh]. simpl.
    rewrite fmap_app. apply NoDup_app. split_and!; [done| |apply NoDup_singleton].
    intros x Hx [->|[]%not_elem_of_nil]%elem_of_cons. done.
  - unfold bulkCreateMedicines, Medicine_insertMany.
    destruct ms as [[|b items]|]; [done| |done].
    destruct (existsb field_missing (b :: items)); [done|].
    destruct (mapM Medicine_validate (b :: items)) as [ms|]; [|done].
    assert (NoDup (Medicine.name <$> (insert_ordered ms (Medicines st)).2)) as H.
    { clear -Hnd. revert Hnd. generalize (Medicines st) as coll.
      induction ms as [|m ms IH]; intros coll Hnd; [done|]. simpl.
      destruct (Medicine_insert m coll) as [f|c] eqn:I; [done|].
      apply insert_inr in I as [-> Hfresh]. apply IH.
      rewrite fmap_app. apply NoDup_app. split_and!; [done| |apply NoDup_singleton].
      intros x Hx [->|[]%not_elem_of_nil]%elem_of_cons. done. }
    by destruct (insert_ordered ms (Medicines st)) as [[f|] c].
  - destruct (updateMedicine id b (Medicines st)) as [[code m'|code why] coll'] eqn:E.
    + simpl. revert E. unfold updateMedicine, Medicine_findByIdAndUpdate.
      destruct (threshold_rejected b); [done|].
      destruct (Medicines st !! id) as [m|] eqn:Hm; [|done].
      cbv zeta. case_bool_decide as Hd; [done|]. intros [= _ <- <-].
      by eapply NoDup_names_insert.
    + pose proof (updateMedicine_refused id b (Medicines st) code why) as H.
      rewrite E in H. simpl in *. by rewrite H.
  - by rewrite (proj1 (giveMedicines_names_thresholds req st)).
Qed.

Lemma perform_keeps_catalogue op st :
  is_update op = false →
  catalogue_ok (Medicines st) → catalogue_ok (Medicines (perform op st)).
Proof.
  intros Hop Hok. destruct op as [b|ms|id b|req]; simpl; [| |done|].
  - unfold addMedicine. destruct (Medicine_validate b) as [m|] eqn:Hv; [|done].
    destruct (Medicine_insert m (Medicines st)) as [f|c] eqn:I; [done|].
    apply insert_inr in I as [-> Hfresh]. simpl.
    apply validate_Some in Hv as (_ & _ & _ & Hn & Hq & Ht).
    by apply catalogue_ok_snoc.
  - unfold bulkCreateMedicines, Medicine_insertMany.
    destruct ms as [[|b items]|]; [done| |done].
    destruct (existsb field_missing (b :: items)); [done|].
    destruct (mapM Medicine_validate (b :: items)) as [ms|] eqn:Hv; [|done].
    destruct (insert_ordered_keeps ms _ Hok (validated_docs_ok _ _ Hv)) as [H _].
    by destruct (insert_ordered ms (Medicines st)) as [[f|] c].
  - by apply giveMedicines_keeps_catalogue.
Qed.

(** X15: along any sequence of creations, bulk creations, updates and
    dispenses the names of the collection stay distinct; and as long as no
    update is among them, the collection stays within the schema: names not
    empty, quantities and thresholds at least 0. *)
Theorem catalogue_invariants_along_requests ops st :
  (NoDup (Medicine.name <$> Medicines st) →
   NoDup (Medicine.name <$> Medicines (perform_all ops st)))
  ∧ (catalogue_ok (Medicines st) →
     Forall (λ op, is_update op = false) ops →
     catalogue_ok (Medicines (perform_all ops st))).
Proof.
  unfold perform_all. revert st. induction ops as [|op ops IH]; intros st; [done|].
  simpl. destruct (IH (perform op st)) as [IH1 IH2]. split.
  - intros Hnd. by apply IH1, perform_keeps_names_distinct.
  - intros Hok [Hop Hops]%Forall_cons. apply IH2; [|done].
    by apply perform_keeps_catalogue.
Qed.

Lemma catalogue_invariants_along_requests_witness :
  catalogue_ok
    (Medicines
       (perform_all
          [Add (entry "Amla" 10 5);
           BulkCreate (Some [entry "Brahmi" 7 2; entry "Amla" 1 0]);
           Give (sample_req [order "Amla" 6; order "Amla" 6])]
          (sample_store []))).
Proof.
  apply (proj2 (catalogue_invariants_along_requests _ (sample_store []))).
  - split; [constructor|constructor].
  - repeat constructor.
Defined.
